(** * Cygaar Points Tracker: the scoring rule and the leaderboard contract

    A shallow embedding of [src/App.tsx].  The component reads a block
    height and a token balance from the chain, derives a points score and a
    level, shows them, writes the score to the [points_leaderboard] table and
    refreshes the displayed top ten.

    - JavaScript [number]s are IEEE 754 binary64 values, taken from the
      Standard Library's executable specification [SpecFloat]
      ([prec = 53], [emax = 1024]); [bigint]s are [Z].
    - JavaScript strings are sequences of code units; the model covers the
      code units U+0000..U+00FF, one [ascii] each.
    - React state is a record threaded through a small state-and-exception
      monad; the chain client, the store client, the clock and the console
      are an environment of answers plus a world that records every call. *)

From Stdlib Require Import ZArith Lia Bool List String Ascii DecimalString.
From Stdlib Require Import Floats.SpecFloat.
From Stdlib Require DecimalPos DecimalFacts.
From stdpp Require Import gmap strings sorting.

Local Open Scope Z_scope.

(** ** ECMAScript Number values *)

Module JS.

Definition prec : Z := 53.
Definition emax : Z := 1024.

Abbreviation number := spec_float.

(** The arithmetic operators [*], [/] and [+] on numbers. *)
Definition mul : number -> number -> number := SFmul prec emax.
Definition div : number -> number -> number := SFdiv prec emax.
Definition add : number -> number -> number := SFadd prec emax.

(** [Number(b)] for a bigint [b], and an integer literal: the integer
    rounded to the nearest double, ties to even. *)
Definition Number_of_bigint (z : Z) : number :=
  binary_normalize prec emax z 0 false.

(** The double nearest to the rational [n / d], ties to even: the value of
    a decimal literal and of a decimal string given to [Number]. *)
Definition Number_of_ratio (n : Z) (d : positive) : number :=
  match n with
  | Z0 => S754_zero false
  | _ =>
    let '(mz, ez, lz) := SFdiv_core_binary prec emax (Z.abs n) 0 (Zpos d) 0 in
    binary_round_aux prec emax (n <? 0) mz ez lz
  end.

(** [Math.floor]: a number with a non-negative exponent is an integer
    already; otherwise the mantissa is shifted right, which rounds towards
    minus infinity on [Z]. *)
Definition Math_floor (x : number) : number :=
  match x with
  | S754_finite s m e =>
    if 0 <=? e then x
    else match Z.shiftr (cond_Zopp s (Zpos m)) (- e) with
         | Z0 => S754_zero s
         | n => binary_normalize prec emax n 0 false
         end
  | _ => x
  end.

(** The sign bit: set for negative numbers and for [-0]. *)
Definition signbit (x : number) : bool :=
  match x with
  | S754_zero s | S754_infinity s | S754_finite s _ _ => s
  | S754_nan => false
  end.

Definition is_finite (x : number) : bool :=
  match x with
  | S754_zero _ | S754_finite _ _ _ => true
  | _ => false
  end.

(** The integer a number stands for, when it stands for one. *)
Definition to_integer (x : number) : option Z :=
  match x with
  | S754_zero _ => Some 0
  | S754_finite s m e =>
    if 0 <=? e then Some (cond_Zopp s (Zpos m * 2 ^ e))
    else if Zpos m mod 2 ^ (- e) =? 0
         then Some (cond_Zopp s (Zpos m / 2 ^ (- e)))
         else None
  | _ => None
  end.

(** Decimal digits of a natural number, most significant first. *)
Definition digits (n : Z) : string :=
  NilZero.string_of_uint (N.to_uint (Z.to_N n)).

(** Shortest decimal that reads back as [x], for an integral [x] of value
    [X >= 10^21]: the least [k] such that some [k]-digit [s] has
    [s * 10^(n-k)] round to [x]; among two such [s] the nearer to [X]. *)
Fixpoint shortest_digits (fuel : nat) (x : number) (X : Z) (d k : Z)
  : Z * Z :=
  match fuel with
  | O => (X, d)
  | S fuel' =>
    let P := 10 ^ (d - k) in
    let lo := X / P in
    let hi := lo + 1 in
    let ok v := match SFcompare (Number_of_bigint v) x with
                | Some Eq => true
                | _ => false
                end in
    let pick s := if s =? 10 ^ k then (10 ^ (k - 1), d + 1) else (s, d) in
    match ok (lo * P), ok (hi * P) with
    | true, true =>
      match (X - lo * P) ?= (hi * P - X) with
      | Lt => pick lo
      | Gt => pick hi
      | Eq => if Z.even lo then pick lo else pick hi
      end
    | true, false => pick lo
    | false, true => pick hi
    | false, false => shortest_digits fuel' x X d (k + 1)
    end
  end.

(** [Number::toString] in exponential form, used from [1e21] on. *)
Definition toString_exponential (x : number) (X : Z) : string :=
  let d := Z.of_nat (String.length (digits X)) in
  let '(s, n) := shortest_digits 17 x X d 1 in
  let ds := digits s in
  let e := digits (n - 1) in
  match ds with
  | String c EmptyString => String c ("e+" +:+ e)
  | String c rest => String c ("." +:+ rest +:+ "e+" +:+ e)
  | EmptyString => EmptyString
  end.

(** The digits of [n] with a point before the last [f] of them. *)
Definition fixed_digits (n : Z) (f : nat) : string :=
  let m := digits n in
  match f with
  | O => m
  | _ =>
    let k := String.length m in
    let m := if (k <=? f)%nat
             then string_of_list_ascii (repeat "0"%char (f + 1 - k)) +:+ m
             else m in
    let k := String.length m in
    substring 0 (k - f) m +:+ "." +:+ substring (k - f) f m
  end.

(** [Number.prototype.toFixed(f)]. *)
Definition toFixed (x : number) (f : nat) : string :=
  match x with
  | S754_nan => "NaN"
  | S754_infinity false => "Infinity"
  | S754_infinity true => "-Infinity"
  | S754_zero _ => fixed_digits 0 f
  | S754_finite s m e =>
    let sign := if s then "-" else "" in
    let big := if 0 <=? e then 10 ^ 21 <=? Zpos m * 2 ^ e
               else 10 ^ 21 * 2 ^ (- e) <=? Zpos m in
    if big then
      let X := if 0 <=? e then Zpos m * 2 ^ e else Zpos m / 2 ^ (- e) in
      sign +:+ toString_exponential (S754_finite false m e) X
    else
      let n := if 0 <=? e then Zpos m * 10 ^ Z.of_nat f * 2 ^ e
               else (2 * Zpos m * 10 ^ Z.of_nat f + 2 ^ (- e))
                    / (2 * 2 ^ (- e)) in
      sign +:+ fixed_digits n f
  end.

End JS.

Import JS.

(** ** Strings *)

(** [String.prototype.toLowerCase] on the code units U+0000..U+00FF: the
    letters A-Z and the Latin-1 capitals U+00C0..U+00DE (but not the
    multiplication sign U+00D7) move up by 32; no other code unit of this
    range changes. *)
Definition toLowerCase_unit (c : ascii) : ascii :=
  let n := nat_of_ascii c in
  if ((65 <=? n) && (n <=? 90)
      || (192 <=? n) && (n <=? 222) && negb (n =? 215))%nat
  then ascii_of_nat (n + 32)
  else c.

Fixpoint toLowerCase (s : string) : string :=
  match s with
  | EmptyString => EmptyString
  | String c s' => String (toLowerCase_unit c) (toLowerCase s')
  end.

(** ** Constants of the component *)

Definition CYGAAR_ADDRESS : string :=
  "0x35EfA4699EdD7b468CBBf4FfF7B6e7AFC0A7aDa6".
Definition UNISWAP_POOL : string :=
  "0xBe01179F2291773D220Eae55Ee85b417F40342d0".
Definition START_BLOCK : Z := 257810.
Definition POINTS_PER_TOKEN : number := Number_of_ratio 1 (10 ^ 10).
Definition POINTS_PER_LEVEL : number := Number_of_bigint 650.
Definition LEADERBOARD_REFRESH_INTERVAL : Z := 6 * 60 * 60 * 1000.

(** ** viem: [formatEther] *)

(** The text of a decimal numeral, kept as the value it denotes:
    [numerator / 10 ^ decimals]. *)
Record decimal_string := { numerator : Z; decimals : positive }.

(** [formatEther(wei)] writes [wei / 10^18] out in full. *)
Definition formatEther (wei : Z) : decimal_string :=
  {| numerator := wei; decimals := 18 |}.

(** [Number(text)] on such a text: the nearest double. *)
Definition Number_of_string (t : decimal_string) : number :=
  Number_of_ratio (numerator t) (10 ^ decimals t).

(** ** Data *)

Module PointsData.
Record t := mk {
  balance : string;
  points : number;
  blocksHeld : number;
  level : number
}.
End PointsData.

Module LeaderboardEntry.
Record t := mk {
  address : string;
  points : number;
  last_updated : string
}.
End LeaderboardEntry.

(** ** The store: table [points_leaderboard], primary key [address] *)

Module Supabase.

Record StoreError := { message : string }.

(** The order of the [points] column.  Every finite double is an integer
    multiple of [2^-1074]; infinities and NaN sort outside the finite
    range, NaN last. *)
Definition numeric_rank (x : number) : Z :=
  match x with
  | S754_zero _ => 0
  | S754_finite s m e => cond_Zopp s (Z.shiftl (Zpos m) (e + 1074))
  | S754_infinity s => cond_Zopp s (2 ^ 2098)
  | S754_nan => 2 ^ 2099
  end.

(** [a] may stand before [b] when the rows are ordered by [points],
    descending. *)
Definition points_desc (a b : LeaderboardEntry.t) : Prop :=
  numeric_rank (LeaderboardEntry.points b)
  <= numeric_rank (LeaderboardEntry.points a).

#[global] Instance points_desc_dec : RelDecision points_desc :=
  fun a b => Z_le_dec _ _.

Definition rows (tbl : gmap string LeaderboardEntry.t)
  : list LeaderboardEntry.t :=
  (map_to_list tbl).*2.

(** [.select('*').neq('address', a).order('points', {ascending: false})
    .limit(n)]: [neq] is the text inequality of the store, which
    distinguishes letter case. *)
Definition select_neq_order_limit (tbl : gmap string LeaderboardEntry.t)
  (a : string) (n : nat) : list LeaderboardEntry.t :=
  take n (merge_sort points_desc
            (filter (fun r => LeaderboardEntry.address r <> a) (rows tbl))).

(** [.upsert(row)]: insert, or replace the row with the same key. *)
Definition upsert (row : LeaderboardEntry.t)
  (tbl : gmap string LeaderboardEntry.t) : gmap string LeaderboardEntry.t :=
  <[LeaderboardEntry.address row := row]> tbl.

End Supabase.

Import Supabase.

(** ** The component's state and its surroundings *)

Record AppState := {
  address : string;
  pointsData : option PointsData.t;
  loading : bool;
  error : string;
  leaderboard : list LeaderboardEntry.t;
  showPointsAnimation : bool;
  showLevelUp : bool
}.

(** What the chain client throws. *)
Inductive ChainError :=
| NetworkError (msg : string)
| ContractCallError (msg : string).

(** Requests sent to the chain node and to the store. *)
Inductive Call :=
| GetBlockNumber
| ReadContract (contract functionName owner : string)
| Upsert (row : LeaderboardEntry.t)
| Select (neq_address : string) (limit : nat).

(** Lines written with [console.error]. *)
Inductive ConsoleLine :=
| ErrorFetchingLeaderboard (e : StoreError)
| ErrorUpdatingLeaderboard (e : StoreError)
| Caught (e : ChainError).

Record World := {
  points_leaderboard : gmap string LeaderboardEntry.t;
  calls : list Call;
  console : list ConsoleLine
}.

(** The answers of the outside during one submission. *)
Record Env := {
  blockNumber : ChainError + Z;
  balanceOf : string -> string -> ChainError + Z;
  upsert_fails : option StoreError;
  select_fails : option StoreError;
  now : string
}.

(** ** State and exceptions *)

Inductive Completion (A : Type) :=
| Normal (a : A)
| Throw (e : ChainError).
Arguments Normal {A} a.
Arguments Throw {A} e.

Definition M (A : Type) : Type :=
  AppState * World -> Completion A * (AppState * World).

#[global] Instance M_ret : MRet M := fun A a s => (Normal a, s).

#[global] Instance M_bind : MBind M := fun A B f m s =>
  match m s with
  | (Normal a, s') => f a s'
  | (Throw e, s') => (Throw e, s')
  end.

Definition throw {A} (e : ChainError) : M A := fun s => (Throw e, s).

Definition try_catch_finally {A} (body : M A) (handler : ChainError -> M A)
  (finalizer : M unit) : M A := fun s =>
  let '(r, s1) := match body s with
                  | (Normal a, s') => (Normal a, s')
                  | (Throw e, s') => handler e s'
                  end in
  match finalizer s1 with
  | (Normal _, s2) => (r, s2)
  | (Throw e, s2) => (Throw e, s2)
  end.

Definition gets {A} (f : AppState -> A) : M A := fun s => (Normal (f s.1), s).

Definition modify (f : AppState -> AppState) : M unit :=
  fun s => (Normal tt, (f s.1, s.2)).

Definition outside (f : World -> World) : M unit :=
  fun s => (Normal tt, (s.1, f s.2)).

Definition table : M (gmap string LeaderboardEntry.t) :=
  fun s => (Normal (points_leaderboard s.2), s).

(** The state setters of [useState]. *)
Definition setAddress (v : string) : M unit :=
  modify (fun a => {| address := v; pointsData := pointsData a;
    loading := loading a; error := error a; leaderboard := leaderboard a;
    showPointsAnimation := showPointsAnimation a;
    showLevelUp := showLevelUp a |}).

Definition setPointsData (v : option PointsData.t) : M unit :=
  modify (fun a => {| address := address a; pointsData := v;
    loading := loading a; error := error a; leaderboard := leaderboard a;
    showPointsAnimation := showPointsAnimation a;
    showLevelUp := showLevelUp a |}).

Definition setLoading (v : bool) : M unit :=
  modify (fun a => {| address := address a; pointsData := pointsData a;
    loading := v; error := error a; leaderboard := leaderboard a;
    showPointsAnimation := showPointsAnimation a;
    showLevelUp := showLevelUp a |}).

Definition setError (v : string) : M unit :=
  modify (fun a => {| address := address a; pointsData := pointsData a;
    loading := loading a; error := v; leaderboard := leaderboard a;
    showPointsAnimation := showPointsAnimation a;
    showLevelUp := showLevelUp a |}).

Definition setLeaderboard (v : list LeaderboardEntry.t) : M unit :=
  modify (fun a => {| address := address a; pointsData := pointsData a;
    loading := loading a; error := error a; leaderboard := v;
    showPointsAnimation := showPointsAnimation a;
    showLevelUp := showLevelUp a |}).

Definition setShowPointsAnimation (v : bool) : M unit :=
  modify (fun a => {| address := address a; pointsData := pointsData a;
    loading := loading a; error := error a; leaderboard := leaderboard a;
    showPointsAnimation := v; showLevelUp := showLevelUp a |}).

Definition setShowLevelUp (v : bool) : M unit :=
  modify (fun a => {| address := address a; pointsData := pointsData a;
    loading := loading a; error := error a; leaderboard := leaderboard a;
    showPointsAnimation := showPointsAnimation a; showLevelUp := v |}).

Definition record_call (c : Call) : M unit :=
  outside (fun w => {| points_leaderboard := points_leaderboard w;
    calls := calls w ++ [c]; console := console w |}).

Definition console_error (l : ConsoleLine) : M unit :=
  outside (fun w => {| points_leaderboard := points_leaderboard w;
    calls := calls w; console := console w ++ [l] |}).

Definition write_table (tbl : gmap string LeaderboardEntry.t) : M unit :=
  outside (fun w => {| points_leaderboard := tbl;
    calls := calls w; console := console w |}).

(** ** The component *)

Section Component.

Variable env : Env.

(** [publicClient.getBlockNumber()]. *)
Definition publicClient_getBlockNumber : M Z :=
  record_call GetBlockNumber;;
  match blockNumber env with
  | inr n => mret n
  | inl e => throw e
  end.

(** [publicClient.readContract({address, abi, functionName, args})] for the
    one-argument view [balanceOf]. *)
Definition publicClient_readContract (contract functionName owner : string)
  : M Z :=
  record_call (ReadContract contract functionName owner);;
  match balanceOf env contract owner with
  | inr b => mret b
  | inl e => throw e
  end.

(** [supabase.from('points_leaderboard').upsert(row)]: answers with the
    error, if any; it does not throw. *)
Definition supabase_upsert (row : LeaderboardEntry.t)
  : M (option StoreError) :=
  record_call (Upsert row);;
  match upsert_fails env with
  | Some e => mret (Some e)
  | None =>
    tbl ← table;
    write_table (upsert row tbl);;
    mret None
  end.

(** The query of [fetchLeaderboard]: the data, or the error. *)
Definition supabase_select (neq_address : string) (limit : nat)
  : M (StoreError + list LeaderboardEntry.t) :=
  record_call (Select neq_address limit);;
  match select_fails env with
  | Some e => mret (inl e)
  | None =>
    tbl ← table;
    mret (inr (select_neq_order_limit tbl neq_address limit))
  end.

Definition fetchLeaderboard : M unit :=
  r ← supabase_select UNISWAP_POOL 10;
  match r with
  | inl error => console_error (ErrorFetchingLeaderboard error)
  | inr data => setLeaderboard data
  end.

Definition calculateLevel (points : number) : number :=
  add (Math_floor (div points POINTS_PER_LEVEL)) (Number_of_bigint 1).

(** [calculatePoints(addressToCheck = address)]: without an argument the
    address is the one in the state.  The call of [fetchLeaderboard] after a
    successful upsert is not awaited in the source; its query is sent at
    that point, and its answer is taken here at once. *)
Definition calculatePoints (arg : option string) : M unit :=
  addressToCheck ← match arg with
                   | Some a => mret a
                   | None => gets address
                   end;
  if String.eqb addressToCheck "" then
    setError "Please enter an address"
  else if String.eqb (toLowerCase addressToCheck) (toLowerCase UNISWAP_POOL)
  then
    setError "This address is not eligible for points tracking"
  else
    try_catch_finally
      (setLoading true;;
       setError "";;
       setShowPointsAnimation false;;
       setShowLevelUp false;;
       currentBlock ← publicClient_getBlockNumber;
       balance ← publicClient_readContract CYGAAR_ADDRESS "balanceOf"
                   addressToCheck;
       let blocksHeld := Number_of_bigint (currentBlock - START_BLOCK) in
       let tokenBalance := Number_of_string (formatEther balance) in
       let points := mul (mul tokenBalance POINTS_PER_TOKEN) blocksHeld in
       let level := calculateLevel points in
       let pointsData :=
         {| PointsData.balance := toFixed tokenBalance 2;
            PointsData.points := points;
            PointsData.blocksHeld := blocksHeld;
            PointsData.level := level |} in
       setPointsData (Some pointsData);;
       setShowPointsAnimation true;;
       setShowLevelUp true;;
       upsertError ← supabase_upsert
         {| LeaderboardEntry.address := toLowerCase addressToCheck;
            LeaderboardEntry.points := points;
            LeaderboardEntry.last_updated := now env |};
       match upsertError with
       | Some e => console_error (ErrorUpdatingLeaderboard e)
       | None => fetchLeaderboard
       end)
      (fun err =>
         setError
           "Error fetching data. Please check the address and try again.";;
         console_error (Caught err))
      (setLoading false).

(** The wallet effect: a connected address is put in the field and
    scored. *)
Definition onConnectedAddress (connectedAddress : option string) : M unit :=
  match connectedAddress with
  | Some a =>
    if String.eqb a "" then mret tt
    else setAddress a;; calculatePoints (Some a)
  | None => mret tt
  end.

(** The button is disabled while [loading] is set: a click reaches its
    handler, which submits the address in the field, only when the flag
    is off.  The Enter key submits the address whatever the flag says. *)
Definition onClick : M unit :=
  disabled ← gets loading;
  if disabled : bool then mret tt else calculatePoints None.

Definition handleKeyPress (key : string) : M unit :=
  if String.eqb key "Enter" then calculatePoints None else mret tt.

End Component.

(** ** Reading a run *)

(** The address a submission is about. *)
Definition submitted (arg : option string) (st : AppState) : string :=
  match arg with
  | Some a => a
  | None => address st
  end.

(** The two guards at the head of [calculatePoints] let the address
    through. *)
Definition eligible (a : string) : bool :=
  negb (String.eqb a "")
  && negb (String.eqb (toLowerCase a) (toLowerCase UNISWAP_POOL)).

Definition app_after {A} (r : Completion A * (AppState * World)) : AppState :=
  r.2.1.

Definition world_after {A} (r : Completion A * (AppState * World)) : World :=
  r.2.2.

(** The calls a run added to those made before it. *)
Definition calls_during {A} (w : World)
  (r : Completion A * (AppState * World)) : list Call :=
  drop (length (calls w)) (calls (world_after r)).

Definition console_during {A} (w : World)
  (r : Completion A * (AppState * World)) : list ConsoleLine :=
  drop (length (console w)) (console (world_after r)).

(** The snapshot and the row of a submission that got both chain
    answers. *)
Definition snapshot (currentBlock balance : Z) : PointsData.t :=
  let blocksHeld := Number_of_bigint (currentBlock - START_BLOCK) in
  let tokenBalance := Number_of_string (formatEther balance) in
  let points := mul (mul tokenBalance POINTS_PER_TOKEN) blocksHeld in
  {| PointsData.balance := toFixed tokenBalance 2;
     PointsData.points := points;
     PointsData.blocksHeld := blocksHeld;
     PointsData.level := calculateLevel points |}.

Definition row_written (env : Env) (a : string) (currentBlock balance : Z)
  : LeaderboardEntry.t :=
  {| LeaderboardEntry.address := toLowerCase a;
     LeaderboardEntry.points := PointsData.points (snapshot currentBlock balance);
     LeaderboardEntry.last_updated := now env |}.

#[global] Arguments Number_of_bigint : simpl never.
#[global] Arguments Number_of_string : simpl never.
#[global] Arguments mul : simpl never.
#[global] Arguments calculateLevel : simpl never.
#[global] Arguments toFixed : simpl never.
#[global] Arguments toLowerCase : simpl never.
#[global] Arguments select_neq_order_limit : simpl never.
#[global] Arguments upsert : simpl never.

Ltac step :=
  cbn [fst snd address pointsData loading error leaderboard
       showPointsAnimation showLevelUp points_leaderboard calls console].

Ltac run_monad :=
  unfold calculatePoints, fetchLeaderboard, supabase_select, supabase_upsert,
    publicClient_readContract, publicClient_getBlockNumber,
    try_catch_finally, setAddress, setPointsData, setLoading, setError,
    setLeaderboard, setShowPointsAnimation, setShowLevelUp, record_call,
    console_error, write_table, table, gets, modify, outside, throw,
    mbind, mret, M_bind, M_ret;
  step.

(** ** Exact values of numbers *)

(** Where the rational [U / V] lies between [U / V] rounded down and the
    next integer: the remainder [r = U mod V] against half of [V]. *)
Definition loc_of (r V : Z) : location :=
  if r =? 0 then loc_Exact else loc_Inexact (2 * r ?= V).

(** A shift record holds the integer part of [U / V] and the place of the
    rest. *)
Definition located (U V : Z) (mrs : shr_record) : Prop :=
  0 < V /\ 0 <= U
  /\ shr_m mrs = U / V
  /\ loc_of_shr_record mrs = loc_of (U mod V) V.

(** [m] is an integer nearest to [U / V], and is [U / V] when that is an
    integer. *)
Definition rounds_to (U V m : Z) : Prop :=
  (2 * m - 1) * V <= 2 * U <= (2 * m + 1) * V
  /\ (U mod V = 0 -> m = U / V).

(** The number [x] has sign [s] and magnitude [M * 2^E]. *)
Definition represents (x : number) (s : bool) (M E : Z) : Prop :=
  match x with
  | S754_zero s' => s' = s /\ M = 0
  | S754_finite s' m e => s' = s /\ E <= e /\ Zpos m * 2 ^ (e - E) = M
  | _ => False
  end.

(** The number [x] has sign [s] and the integer [z] as its magnitude,
    written without a positive exponent. *)
Definition integral (x : number) (s : bool) (z : Z) : Prop :=
  match x with
  | S754_zero s' => s' = s /\ z = 0
  | S754_finite s' m e => s' = s /\ e <= 0 /\ Zpos m = z * 2 ^ (- e)
  | _ => False
  end.

(** Well-formed doubles: the mantissa has 53 digits, or fewer at the least
    exponent. *)
Definition valid (x : number) : bool := valid_binary prec emax x.

(** [floor (x / d)] in exact arithmetic, for a finite [x] and [0 < d]. *)
Definition floor_quotient (x : number) (d : Z) : option Z :=
  match x with
  | S754_zero _ => Some 0
  | S754_finite s m e =>
    Some (if 0 <=? e then cond_Zopp s (Zpos m * 2 ^ e) / d
          else cond_Zopp s (Zpos m) / (d * 2 ^ (- e)))
  | _ => None
  end.

(** [0 <= x < n] in exact arithmetic, for an integer [n]. *)
Definition below (x : number) (n : Z) : Prop :=
  match x with
  | S754_zero _ => 0 < n
  | S754_finite false m e =>
    if 0 <=? e then Zpos m * 2 ^ e < n else Zpos m < n * 2 ^ (- e)
  | _ => False
  end.

(** [x] is not NaN and its sign bit is [s]. *)
Definition signed (x : number) (s : bool) : Prop :=
  match x with
  | S754_nan => False
  | _ => signbit x = s
  end.

(** ** Concrete states and environments *)

(** The state [useState] starts from. *)
Definition idle : AppState :=
  {| address := "";
     pointsData := None;
     loading := false;
     error := "";
     leaderboard := [];
     showPointsAnimation := false;
     showLevelUp := false |}.

Definition untouched : World :=
  {| points_leaderboard := ∅; calls := []; console := [] |}.

Definition holder : string := "0x71C7656EC7ab88b098defB751B7401B5f6d8976F".
Definition holder_lowercase : string :=
  "0x71c7656ec7ab88b098defb751b7401b5f6d8976f".

(** A chain at block [cb] where every account holds [b] base units, and a
    store that answers as [up] and [sel] say. *)
Definition chain_at (cb b : Z) (up sel : option StoreError) : Env :=
  {| blockNumber := inr cb;
     balanceOf := fun _ _ => inr b;
     upsert_fails := up;
     select_fails := sel;
     now := "2025-03-01T12:00:00.000Z" |}.

Definition store_down : StoreError := {| message := "fetch failed" |}.

(** A table in which the pool address was stored the way the component
    stores every address: in lowercase. *)
Definition pool_row : LeaderboardEntry.t :=
  {| LeaderboardEntry.address := "0xbe01179f2291773d220eae55ee85b417f40342d0";
     LeaderboardEntry.points := Number_of_bigint 5000;
     LeaderboardEntry.last_updated := "2025-02-01T00:00:00.000Z" |}.

Definition world_with_pool_row : World :=
  {| points_leaderboard := upsert pool_row ∅; calls := []; console := [] |}.

(** ** The rest of the component *)

(** [String.prototype.slice(start, end)]: a negative position counts from
    the end, every position is clamped to the string, and an [end] before
    the [start] gives the empty string. *)
Definition slice (s : string) (start : Z) (stop : option Z) : string :=
  let len := Z.of_nat (String.length s) in
  let clamp p := if p <? 0 then Z.max (len + p) 0 else Z.min p len in
  let from := clamp start in
  let to := match stop with
            | None => len
            | Some p => clamp p
            end in
  substring (Z.to_nat from) (Z.to_nat (Z.max (to - from) 0)) s.

Definition shortenAddress (addr : string) : string :=
  slice addr 0 (Some 6) +:+ "..." +:+ slice addr (-4) None.

(** The input field: [onChange] stores what was typed. *)
Definition onChange (value : string) : M unit := setAddress value.

(** The mount effect sends one refresh at once; its timer sends the same
    refresh again every [LEADERBOARD_REFRESH_INTERVAL] milliseconds. *)
Definition onMount (env : Env) : M unit := fetchLeaderboard env.

(** The text of a score, on the card and in a row of the table:
    [points.toFixed(2)]. *)
Definition points_text (points : number) : string := toFixed points 2.

(** [0 <= x < p / q] in exact arithmetic, for [0 < q]. *)
Definition below_fraction (x : number) (p q : Z) : Prop :=
  match x with
  | S754_zero _ => 0 < p
  | S754_finite false m e =>
    if 0 <=? e then Zpos m * 2 ^ e * q < p else Zpos m * q < p * 2 ^ (- e)
  | _ => False
  end.

(** Two states that show the same, whatever is in the input field. *)
Definition same_display (s1 s2 : AppState) : Prop :=
  pointsData s1 = pointsData s2
  /\ loading s1 = loading s2
  /\ error s1 = error s2
  /\ leaderboard s1 = leaderboard s2
  /\ showPointsAnimation s1 = showPointsAnimation s2
  /\ showLevelUp s1 = showLevelUp s2.

(** ** Tables *)

(** Every row sits under its own address. *)
Definition well_keyed (tbl : gmap string LeaderboardEntry.t) : Prop :=
  map_Forall (fun k r => LeaderboardEntry.address r = k) tbl.

(** Every stored address is in lowercase. *)
Definition lowercase_rows (tbl : gmap string LeaderboardEntry.t) : Prop :=
  map_Forall (fun _ r => toLowerCase (LeaderboardEntry.address r)
                         = LeaderboardEntry.address r) tbl.

(** ** Magnitudes *)

(** [x] is a zero or a finite number of magnitude below [2^B]. *)
Definition magnitude_below (x : number) (B : Z) : Prop :=
  match x with
  | S754_zero _ => True
  | S754_finite _ m e => Zdigits2 (Zpos m) + e <= B
  | _ => False
  end.

(** A state with a snapshot on display and a table with two rows, for
    examples. *)
Definition earlier_snapshot : PointsData.t := snapshot 267810 (10 ^ 24).

Definition showing_snapshot : AppState :=
  {| address := holder;
     pointsData := Some earlier_snapshot;
     loading := false;
     error := "";
     leaderboard := [];
     showPointsAnimation := true;
     showLevelUp := true |}.

(** A state in the middle of a submission: the button is disabled. *)
Definition waiting : AppState :=
  {| address := holder;
     pointsData := None;
     loading := true;
     error := "";
     leaderboard := [];
     showPointsAnimation := false;
     showLevelUp := false |}.

Definition node_down : ChainError := NetworkError "HTTP request failed".

Definition chain_down (e : ChainError) : Env :=
  {| blockNumber := inl e;
     balanceOf := fun _ _ => inl e;
     upsert_fails := None;
     select_fails := None;
     now := "2025-03-01T12:00:00.000Z" |}.

Definition other_row : LeaderboardEntry.t :=
  {| LeaderboardEntry.address := "0x00000000000000000000000000000000000000aa";
     LeaderboardEntry.points := Number_of_bigint 7;
     LeaderboardEntry.last_updated := "2025-02-01T00:00:00.000Z" |}.

Definition world_with_other_row : World :=
  {| points_leaderboard := upsert other_row ∅; calls := []; console := [] |}.

(** ** Rounding *)

Lemma digits2_pos_bounds p :
  2 ^ (Zpos (digits2_pos p) - 1) <= Zpos p < 2 ^ Zpos (digits2_pos p).
Proof.
  induction p as [p IH | p IH |]; cbn [digits2_pos].
  - rewrite Pos2Z.inj_succ.
    replace (Z.succ (Zpos (digits2_pos p)) - 1)
      with (Z.succ (Zpos (digits2_pos p) - 1)) by lia.
    rewrite !Z.pow_succ_r by lia. lia.
  - rewrite Pos2Z.inj_succ.
    replace (Z.succ (Zpos (digits2_pos p)) - 1)
      with (Z.succ (Zpos (digits2_pos p) - 1)) by lia.
    rewrite !Z.pow_succ_r by lia. lia.
  - cbn. lia.
Qed.

Lemma Zdigits2_nonneg m : 0 <= Zdigits2 m.
Proof. destruct m; cbn; lia. Qed.

Lemma Zdigits2_bounds m :
  0 < m -> 2 ^ (Zdigits2 m - 1) <= m < 2 ^ Zdigits2 m.
Proof. destruct m as [|p|p]; try lia. intros _. apply digits2_pos_bounds. Qed.

(** A number below [2^D] has at most [D] binary digits. *)
Lemma Zdigits2_le m D : 0 <= m -> 0 <= D -> m < 2 ^ D -> Zdigits2 m <= D.
Proof.
  intros Hm HD Hlt. destruct (Z.eq_dec m 0) as [-> | Hne]; [cbn; lia |].
  destruct (Zdigits2_bounds m ltac:(lia)) as [Hlo _].
  destruct (Z_le_gt_dec (Zdigits2 m) D) as [|Hgt]; [assumption |].
  exfalso. assert (2 ^ D <= 2 ^ (Zdigits2 m - 1))
    by (apply Z.pow_le_mono_r; lia). lia.
Qed.

(** A number from [2^(D-1)] on has at least [D] binary digits. *)
Lemma Zdigits2_ge m D : 0 < D -> 2 ^ (D - 1) <= m -> D <= Zdigits2 m.
Proof.
  intros HD Hle.
  assert (0 < m) by (pose proof (Z.pow_pos_nonneg 2 (D - 1)); lia).
  destruct (Zdigits2_bounds m ltac:(lia)) as [_ Hhi].
  destruct (Z_le_gt_dec D (Zdigits2 m)) as [|Hgt]; [assumption |].
  exfalso. assert (2 ^ Zdigits2 m <= 2 ^ (D - 1))
    by (apply Z.pow_le_mono_r; lia). lia.
Qed.

Lemma loc_of_record_of_loc m l :
  loc_of_shr_record (shr_record_of_loc m l) = l
  /\ shr_m (shr_record_of_loc m l) = m.
Proof. destruct l as [|[]]; split; reflexivity. Qed.

(** One shift to the right halves the scale. *)
Lemma shr_1_located U V mrs :
  located U V mrs -> located U (2 * V) (shr_1 mrs).
Proof.
  intros (HV & HU & Hm & Hl).
  assert (Hdiv : U / (2 * V) = U / V / 2)
    by (rewrite (Z.mul_comm 2 V), Z.div_div by lia; reflexivity).
  assert (Hmod : U mod (2 * V) = U mod V + V * ((U / V) mod 2))
    by (rewrite (Z.mul_comm 2 V); apply Z.rem_mul_r; lia).
  pose proof (Z.mod_pos_bound U V HV) as Hr.
  assert (Hq : 0 <= U / V) by (apply Z.div_pos; lia).
  unfold located. rewrite Hdiv, Hmod.
  destruct mrs as [m r s]. cbn [shr_m] in Hm. subst m.
  assert (Hsticky : orb r s = negb (U mod V =? 0)).
  { unfold loc_of in Hl. destruct (U mod V =? 0), r, s; cbn in Hl |- *;
      try reflexivity; discriminate. }
  repeat split; try lia.
  - destruct (U / V) as [|[p|p|]|p] eqn:E; cbn [shr_1 shr_m]; try lia;
      try reflexivity.
    + change (Zpos p~1) with (2 * Zpos p + 1).
      rewrite (Z.mul_comm 2), Z.div_add_l by lia. reflexivity.
    + change (Zpos p~0) with (2 * Zpos p).
      rewrite (Z.mul_comm 2), Z.div_mul by lia. reflexivity.
  - unfold loc_of.
    destruct (U / V) as [|[p|p|]|p] eqn:E; cbn [shr_1 loc_of_shr_record];
      [| | | | lia]; rewrite Hsticky.
    + change (0 mod 2) with 0. rewrite Z.mul_0_r, Z.add_0_r.
      destruct (U mod V =? 0) eqn:E0; cbn [negb]; [reflexivity |].
      apply Z.eqb_neq in E0. f_equal. symmetry. apply Z.compare_lt_iff. lia.
    + assert (Zpos p~1 mod 2 = 1)
        by (change (Zpos p~1) with (2 * Zpos p + 1);
            rewrite Z.add_comm, Z.mul_comm, Z.mod_add by lia; reflexivity).
      rewrite H. rewrite Z.mul_1_r.
      assert ((U mod V + V =? 0) = false) by (apply Z.eqb_neq; lia).
      rewrite H0.
      destruct (U mod V =? 0) eqn:E0; cbn [negb].
      * apply Z.eqb_eq in E0. f_equal. symmetry. apply Z.compare_eq_iff. lia.
      * apply Z.eqb_neq in E0. f_equal. symmetry. apply Z.compare_gt_iff. lia.
    + assert (Zpos p~0 mod 2 = 0)
        by (change (Zpos p~0) with (2 * Zpos p);
            rewrite Z.mul_comm, Z.mod_mul by lia; reflexivity).
      rewrite H. rewrite Z.mul_0_r, Z.add_0_r.
      destruct (U mod V =? 0) eqn:E0; cbn [negb]; [reflexivity |].
      apply Z.eqb_neq in E0. f_equal. symmetry. apply Z.compare_lt_iff. lia.
    + change (1 mod 2) with 1. rewrite Z.mul_1_r.
      assert ((U mod V + V =? 0) = false) by (apply Z.eqb_neq; lia).
      rewrite H.
      destruct (U mod V =? 0) eqn:E0; cbn [negb].
      * apply Z.eqb_eq in E0. f_equal. symmetry. apply Z.compare_eq_iff. lia.
      * apply Z.eqb_neq in E0. f_equal. symmetry. apply Z.compare_gt_iff. lia.
Qed.

Lemma iter_pos_shr_1_located p : forall U V mrs,
  located U V mrs -> located U (2 ^ Zpos p * V) (SpecFloat.iter_pos shr_1 p mrs).
Proof.
  induction p as [p IH | p IH |]; intros U V mrs H; cbn [SpecFloat.iter_pos].
  - apply shr_1_located, IH, IH in H.
    replace (2 ^ Zpos p~1 * V) with (2 ^ Zpos p * (2 ^ Zpos p * (2 * V)));
      [exact H |].
    change (Zpos p~1) with (2 * Zpos p + 1).
    rewrite Z.pow_add_r, Z.pow_1_r by lia.
    replace (2 * Zpos p) with (Zpos p + Zpos p) by lia.
    rewrite Z.pow_add_r by lia. ring.
  - apply IH, IH in H.
    replace (2 ^ Zpos p~0 * V) with (2 ^ Zpos p * (2 ^ Zpos p * V));
      [exact H |].
    change (Zpos p~0) with (2 * Zpos p).
    replace (2 * Zpos p) with (Zpos p + Zpos p) by lia.
    rewrite Z.pow_add_r by lia. ring.
  - apply shr_1_located in H. exact H.
Qed.

(** [shr_fexp]: the mantissa moves to the exponent
    [max e (fexp (digits m + e))], keeping track of what falls off. *)
Lemma shr_fexp_located U V m l :
  forall e, 0 < V -> 0 <= U -> m = U / V -> l = loc_of (U mod V) V ->
  let e1 := Z.max e (fexp prec emax (Zdigits2 m + e)) in
  located U (2 ^ (e1 - e) * V) (shr_fexp prec emax m e l).1
  /\ (shr_fexp prec emax m e l).2 = e1.
Proof.
  intros e HV HU Hm Hl e1. subst e1. unfold shr_fexp, shr.
  assert (H0 : located U V (shr_record_of_loc m l)).
  { destruct (loc_of_record_of_loc m l) as [H1 H2].
    unfold located. rewrite H1, H2. auto. }
  destruct (fexp prec emax (Zdigits2 m + e) - e) as [|p|p] eqn:E;
    cbn [fst snd].
  - replace (Z.max e (fexp prec emax (Zdigits2 m + e))) with e by lia.
    rewrite Z.sub_diag, Z.pow_0_r, Z.mul_1_l. auto.
  - replace (Z.max e (fexp prec emax (Zdigits2 m + e))) with (e + Zpos p)
      by lia.
    replace (e + Zpos p - e) with (Zpos p) by lia.
    split; [apply iter_pos_shr_1_located; exact H0 | reflexivity].
  - replace (Z.max e (fexp prec emax (Zdigits2 m + e))) with e by lia.
    rewrite Z.sub_diag, Z.pow_0_r, Z.mul_1_l. auto.
Qed.

Lemma round_nearest_even_rounds U V mrs :
  located U V mrs ->
  let m := round_nearest_even (shr_m mrs) (loc_of_shr_record mrs) in
  rounds_to U V m /\ shr_m mrs <= m <= shr_m mrs + 1.
Proof.
  intros (HV & HU & Hm & Hl). cbv zeta. rewrite Hm, Hl. clear Hm Hl.
  pose proof (Z.mod_pos_bound U V HV) as Hr.
  pose proof (Z.div_mod U V ltac:(lia)) as Hd.
  unfold rounds_to, loc_of, round_nearest_even.
  set (q := U / V) in *. set (r := U mod V) in *. clearbody q r.
  destruct (r =? 0) eqn:E0.
  - apply Z.eqb_eq in E0. repeat split; try lia; nia.
  - apply Z.eqb_neq in E0.
    destruct (2 * r ?= V) eqn:Ec.
    + apply -> Z.compare_eq_iff in Ec.
      destruct (Z.even q); repeat split; try lia; nia.
    + apply -> Z.compare_lt_iff in Ec. repeat split; try lia; nia.
    + apply -> Z.compare_gt_iff in Ec. repeat split; try lia; nia.
Qed.

Lemma fexp_ge_emin e : -1074 <= fexp prec emax e.
Proof. unfold fexp, emin, prec, emax. lia. Qed.

Lemma fexp_eq e : fexp prec emax e = Z.max (e - 53) (-1074).
Proof. reflexivity. Qed.

Lemma div_pow2_lt m d n :
  0 <= m -> 0 <= n -> 0 <= d -> m < 2 ^ d -> m / 2 ^ n < 2 ^ Z.max (d - n) 0.
Proof.
  intros Hm Hn Hd Hlt.
  assert (Hp : 0 < 2 ^ n) by (apply Z.pow_pos_nonneg; lia).
  apply Z.div_lt_upper_bound; [exact Hp |].
  destruct (Z_le_gt_dec n d).
  - replace (Z.max (d - n) 0) with (d - n) by lia.
    rewrite <- Z.pow_add_r by lia. replace (n + (d - n)) with d by lia.
    exact Hlt.
  - replace (Z.max (d - n) 0) with 0 by lia. rewrite Z.pow_0_r, Z.mul_1_r.
    assert (2 ^ d <= 2 ^ n) by (apply Z.pow_le_mono_r; lia). lia.
Qed.

(** What [binary_round_aux] returns for the rational [U / V * 2^ex] given
    by its integer part [mx] and the place [lx] of the rest: a nearest
    multiple [m2 * 2^e1] of the unit in the last place, written with a
    mantissa of at most 53 digits. *)
Lemma binary_round_aux_spec sx U V mx lx ex :
  0 < V -> 0 <= U -> mx = U / V -> lx = loc_of (U mod V) V ->
  let e1 := Z.max ex (fexp prec emax (Zdigits2 mx + ex)) in
  exists m2,
    rounds_to U (2 ^ (e1 - ex) * V) m2
    /\ ((m2 = 0 /\ binary_round_aux prec emax sx mx ex lx = S754_zero sx)
        \/ (exists m3 e3,
              e1 <= e3 <= e1 + 1
              /\ Zpos m3 * 2 ^ (e3 - e1) = m2
              /\ Zpos m3 < 2 ^ 53
              /\ (e3 = e1 \/ m2 = 2 ^ 53)
              /\ binary_round_aux prec emax sx mx ex lx
                 = if e3 <=? emax - prec then S754_finite sx m3 e3
                   else S754_infinity sx)).
Proof.
  intros HV HU Hmx Hlx e1.
  destruct (shr_fexp_located U V mx lx ex HV HU Hmx Hlx) as [Hloc1 He1].
  fold e1 in Hloc1, He1.
  unfold binary_round_aux.
  destruct (shr_fexp prec emax mx ex lx) as [rec1 e1'].
  cbn [fst snd] in Hloc1, He1. subst e1'.
  destruct (round_nearest_even_rounds _ _ _ Hloc1) as [Hround Hnear].
  set (m2 := round_nearest_even (shr_m rec1) (loc_of_shr_record rec1)) in *.
  assert (Hpow : 0 < 2 ^ (e1 - ex)) by (apply Z.pow_pos_nonneg; lia).
  assert (Hm1 : 0 <= shr_m rec1 < 2 ^ 53).
  { destruct Hloc1 as (_ & _ & -> & _).
    rewrite Z.mul_comm, <- Z.div_div, <- Hmx by lia.
    assert (Hmx0 : 0 <= mx) by (subst mx; apply Z.div_pos; lia).
    split; [apply Z.div_pos; lia |].
    destruct (Z.eq_dec mx 0) as [-> | Hne].
    { rewrite Z.div_0_l by lia. lia. }
    destruct (Zdigits2_bounds mx ltac:(lia)) as [_ Hhi].
    pose proof (Zdigits2_nonneg mx) as Hd.
    pose proof (div_pow2_lt mx (Zdigits2 mx) (e1 - ex)
                  Hmx0 ltac:(lia) Hd Hhi) as Hlt.
    assert (2 ^ Z.max (Zdigits2 mx - (e1 - ex)) 0 <= 2 ^ 53).
    { apply Z.pow_le_mono_r; [lia |]. subst e1. rewrite fexp_eq. lia. }
    lia. }
  exists m2. split; [exact Hround |].
  assert (Hm2 : 0 <= m2 <= 2 ^ 53) by lia.
  assert (Hemin : -1074 <= e1)
    by (subst e1; pose proof (fexp_ge_emin (Zdigits2 mx + ex)); lia).
  destruct (shr_fexp_located m2 1 m2 loc_Exact e1 ltac:(lia) ltac:(lia))
    as [Hloc2 He2].
  { rewrite Z.div_1_r. reflexivity. }
  { rewrite Z.mod_1_r. reflexivity. }
  destruct (shr_fexp prec emax m2 e1 loc_Exact) as [rec2 e2].
  cbn [fst snd] in Hloc2, He2. rewrite <- He2 in Hloc2.
  destruct Hloc2 as (_ & _ & Hm3 & _). rewrite Z.mul_1_r in Hm3.
  destruct (Z.eq_dec m2 0) as [E0 | Hne].
  { left. split; [exact E0 |]. rewrite Hm3, E0, Z.div_0_l; [reflexivity |].
    apply Z.pow_nonzero; lia. }
  right.
  destruct (Z.eq_dec m2 (2 ^ 53)) as [Etop | Hlow].
  - assert (Hd2 : Zdigits2 m2 = 54) by (rewrite Etop; reflexivity).
    rewrite Hd2, fexp_eq in He2.
    replace (Z.max e1 (Z.max (54 + e1 - 53) (-1074))) with (e1 + 1)
      in He2 by lia.
    subst e2. replace (e1 + 1 - e1) with 1 in Hm3 by lia.
    rewrite Etop in Hm3. change (2 ^ 53 / 2 ^ 1) with (Zpos (2 ^ 52)) in Hm3.
    rewrite Hm3. exists (2 ^ 52)%positive, (e1 + 1).
    replace (e1 + 1 - e1) with 1 by lia. rewrite Etop.
    repeat split; try lia; try reflexivity.
  - assert (Hd2 : Zdigits2 m2 <= 53)
      by (apply Zdigits2_le; lia).
    rewrite fexp_eq in He2.
    replace (Z.max e1 (Z.max (Zdigits2 m2 + e1 - 53) (-1074))) with e1
      in He2 by lia.
    subst e2. rewrite Z.sub_diag, Z.pow_0_r, Z.div_1_r in Hm3.
    rewrite Hm3. destruct m2 as [|p|p]; try lia.
    exists p, e1. rewrite Z.sub_diag, Z.pow_0_r.
    repeat split; try lia; try reflexivity.
Qed.

(** *** Integers that need no rounding *)

Lemma pos_iter_xO m d : Zpos (Pos.iter xO m d) = Zpos m * 2 ^ Zpos d.
Proof.
  induction d as [|d IH] using Pos.peano_ind.
  - cbn. lia.
  - rewrite Pos.iter_succ, Pos2Z.inj_succ, Z.pow_succ_r by lia.
    change (Zpos (Pos.iter xO m d)~0) with (2 * Zpos (Pos.iter xO m d)).
    rewrite IH. ring.
Qed.

Lemma Zdigits2_mul_pow2 z k :
  0 < z -> 0 <= k -> Zdigits2 (z * 2 ^ k) = Zdigits2 z + k.
Proof.
  intros Hz Hk.
  destruct (Zdigits2_bounds z Hz) as [Hlo Hhi].
  assert (Hp : 0 < 2 ^ k) by (apply Z.pow_pos_nonneg; lia).
  assert (Hd : 0 < Zdigits2 z) by (destruct z; cbn in *; lia).
  apply Z.le_antisymm.
  - apply Zdigits2_le; [nia | lia |].
    rewrite Z.pow_add_r by lia. nia.
  - apply Zdigits2_ge; [lia |].
    replace (Zdigits2 z + k - 1) with (Zdigits2 z - 1 + k) by lia.
    rewrite Z.pow_add_r by lia. nia.
Qed.

Lemma shl_align_spec mx ex ex' :
  let '(mz, ez) := shl_align mx ex ex' in
  ez = Z.min ex ex' /\ Zpos mz = Zpos mx * 2 ^ (ex - ez).
Proof.
  unfold shl_align. destruct (ex' - ex) as [|d|d] eqn:E.
  - split; [lia |]. rewrite Z.sub_diag. cbn. lia.
  - split; [lia |]. rewrite Z.sub_diag. cbn. lia.
  - split; [lia |]. rewrite pos_iter_xO. f_equal. f_equal. lia.
Qed.

(** Rounding a positive integer below [2^53] changes nothing. *)
Lemma binary_round_integral s m e z :
  0 < z < 2 ^ 53 -> e <= 0 -> Zpos m = z * 2 ^ (- e) ->
  integral (binary_round prec emax s m e) s z.
Proof.
  intros Hz He Hm. unfold binary_round.
  pose proof (shl_align_spec m e (fexp prec emax (Zpos (digits2_pos m) + e)))
    as Hal.
  destruct (shl_align m e _) as [mz ez]. destruct Hal as [Hez Hmz].
  change (Zpos (digits2_pos m)) with (Zdigits2 (Zpos m)) in Hez.
  assert (Hdm : Zdigits2 (Zpos m) + e = Zdigits2 z)
    by (rewrite Hm, Zdigits2_mul_pow2 by lia; lia).
  rewrite Hdm in Hez.
  assert (Hdz : 0 < Zdigits2 z <= 53).
  { split; [destruct z; cbn in *; lia | apply Zdigits2_le; lia]. }
  set (f := fexp prec emax (Zdigits2 z)) in *.
  assert (Hf : f = Zdigits2 z - 53) by (subst f; rewrite fexp_eq; lia).
  assert (Hdmz : Zdigits2 (Zpos mz) + ez = Zdigits2 z)
    by (rewrite Hmz, Zdigits2_mul_pow2 by lia; lia).
  destruct (binary_round_aux_spec s (Zpos mz) 1 (Zpos mz) loc_Exact ez)
    as (m2 & [Hb Hexact] & Hres); try lia.
  { rewrite Z.div_1_r. reflexivity. }
  { rewrite Z.mod_1_r. reflexivity. }
  rewrite Hdmz in Hb, Hexact, Hres. fold f in Hb, Hexact, Hres.
  replace (Z.max ez f) with f in Hb, Hexact, Hres by lia.
  rewrite Z.mul_1_r in Hb, Hexact.
  assert (Hval : Zpos mz = z * 2 ^ (- f) * 2 ^ (f - ez)).
  { rewrite Hmz, Hm, <- !Z.mul_assoc, <- !Z.pow_add_r by lia.
    f_equal. f_equal. lia. }
  assert (Hpf : 0 < 2 ^ (f - ez)) by (apply Z.pow_pos_nonneg; lia).
  assert (Hm2 : m2 = z * 2 ^ (- f)).
  { rewrite Hexact.
    - rewrite Hval, Z.div_mul by lia. reflexivity.
    - rewrite Hval, Z.mod_mul by lia. reflexivity. }
  assert (Hlt : m2 < 2 ^ 53).
  { rewrite Hm2. destruct (Zdigits2_bounds z ltac:(lia)) as [_ Hhi].
    replace 53 with (Zdigits2 z + - f) by lia.
    rewrite Z.pow_add_r by lia.
    assert (0 < 2 ^ (- f)) by (apply Z.pow_pos_nonneg; lia). nia. }
  assert (Hpos : 0 < m2).
  { rewrite Hm2. assert (0 < 2 ^ (- f)) by (apply Z.pow_pos_nonneg; lia).
    nia. }
  destruct Hres as [[E0 _] | (m3 & e3 & He3 & Hm3 & _ & Hcase & ->)];
    [lia |].
  destruct Hcase as [-> | Etop]; [| lia].
  rewrite Z.sub_diag, Z.pow_0_r, Z.mul_1_r in Hm3.
  assert (Hle : (f <=? emax - prec) = true)
    by (apply Z.leb_le; unfold emax, prec; lia).
  rewrite Hle. cbn [integral]. repeat split; [lia |]. rewrite Hm3. exact Hm2.
Qed.

(** [Number(z)] for a bigint of magnitude below [2^53] is [z] itself. *)
Lemma Number_of_bigint_integral z :
  Z.abs z < 2 ^ 53 -> integral (Number_of_bigint z) (z <? 0) (Z.abs z).
Proof.
  intros Hz. unfold Number_of_bigint, binary_normalize.
  destruct z as [|p|p].
  - cbn. auto.
  - apply binary_round_integral; cbn in *; lia.
  - apply binary_round_integral; cbn in *; lia.
Qed.

Lemma to_integer_integral x s z :
  integral x s z -> to_integer x = Some (cond_Zopp s z).
Proof.
  destruct x as [s' | s' | | s' m e]; cbn [integral to_integer];
    try contradiction.
  - intros [-> ->]. destruct s; reflexivity.
  - intros (-> & He & Hm).
    destruct (Z.eq_dec e 0) as [-> | Hne].
    + cbn [Z.leb Z.compare]. change (- 0) with 0 in Hm.
      rewrite Z.pow_0_r in *. f_equal. f_equal. lia.
    + assert (Hlt : (0 <=? e) = false) by (apply Z.leb_gt; lia).
      rewrite Hlt, Hm.
      assert (0 < 2 ^ (- e)) by (apply Z.pow_pos_nonneg; lia).
      rewrite Z.mod_mul, Z.div_mul by lia. reflexivity.
Qed.

Lemma Number_of_bigint_exact z :
  Z.abs z < 2 ^ 53 -> to_integer (Number_of_bigint z) = Some z.
Proof.
  intros Hz.
  rewrite (to_integer_integral _ _ _ (Number_of_bigint_integral z Hz)).
  f_equal. destruct z; cbn; reflexivity.
Qed.

(** Adding two such integers whose sum stays below [2^53] is exact. *)
Lemma add_integral x y a b :
  integral x false a -> integral y false b -> a + b < 2 ^ 53 ->
  integral (add x y) false (a + b).
Proof.
  destruct x as [sx | sx | | sx mx ex], y as [sy | sy | | sy my ey];
    cbn [integral]; try contradiction; try (intros _ []; fail);
    try (intros []; fail).
  - intros [-> ->] [-> ->] _. cbn. auto.
  - intros [-> ->] (-> & He & Hm) _. cbn. auto.
  - intros (-> & He & Hm) [-> ->] _. cbn. rewrite Z.add_0_r. auto.
  - intros (-> & Hex & Hmx) (-> & Hey & Hmy) Hsum.
    unfold add, SFadd. cbn [cond_Zopp].
    pose proof (shl_align_spec mx ex (Z.min ex ey)) as Hx.
    pose proof (shl_align_spec my ey (Z.min ex ey)) as Hy.
    destruct (shl_align mx ex (Z.min ex ey)) as [mx' ex'].
    destruct (shl_align my ey (Z.min ex ey)) as [my' ey'].
    destruct Hx as [Hex' Hmx'], Hy as [Hey' Hmy']. cbn [fst].
    set (ez := Z.min ex ey) in *.
    assert (Ha : Zpos mx' = a * 2 ^ (- ez)).
    { rewrite Hmx', Hmx, <- Z.mul_assoc, <- Z.pow_add_r by lia.
      f_equal. f_equal. lia. }
    assert (Hb : Zpos my' = b * 2 ^ (- ez)).
    { rewrite Hmy', Hmy, <- Z.mul_assoc, <- Z.pow_add_r by lia.
      f_equal. f_equal. lia. }
    assert (Hp : 0 < 2 ^ (- ez)) by (apply Z.pow_pos_nonneg; lia).
    change (Zpos mx' + Zpos my') with (Zpos (mx' + my')).
    cbn [binary_normalize].
    apply binary_round_integral; [nia | lia |].
    rewrite Pos2Z.inj_add, Ha, Hb. ring.
Qed.

(** *** Division *)

Lemma new_location_spec n k :
  0 < n -> 0 <= k < n -> new_location n k = loc_of k n.
Proof.
  intros Hn Hk. unfold new_location, new_location_even, new_location_odd,
    loc_of.
  destruct (Z.even n) eqn:Ev; destruct (k =? 0) eqn:E0; try reflexivity.
  f_equal.
  assert (Hodd : Z.odd n = true) by (rewrite <- Z.negb_even, Ev; reflexivity).
  apply Z.odd_spec in Hodd as [j Hj].
  destruct (2 * k + 1 ?= n) eqn:Ec.
  - apply -> Z.compare_eq_iff in Ec. symmetry. apply Z.compare_lt_iff. lia.
  - apply -> Z.compare_lt_iff in Ec. symmetry. apply Z.compare_lt_iff. lia.
  - apply -> Z.compare_gt_iff in Ec. symmetry. apply Z.compare_gt_iff. lia.
Qed.

(** The quotient of two mantissas, cut at the exponent [e']: its integer
    part and the place of the rest. *)
Lemma SFdiv_core_binary_spec m1 e1 m2 e2 :
  let e' := Z.min (fexp prec emax (Zdigits2 (Zpos m1) + e1
                                   - (Zdigits2 (Zpos m2) + e2)))
                  (e1 - e2) in
  let U := Zpos m1 * 2 ^ (e1 - e2 - e') in
  SFdiv_core_binary prec emax (Zpos m1) e1 (Zpos m2) e2
  = (U / Zpos m2, e', loc_of (U mod Zpos m2) (Zpos m2)).
Proof.
  intros e' U. unfold SFdiv_core_binary. fold e'.
  assert (Hs : 0 <= e1 - e2 - e') by (subst e'; lia).
  assert (Hm' : match e1 - e2 - e' with
                | Zpos _ => Z.shiftl (Zpos m1) (e1 - e2 - e')
                | Z0 => Zpos m1
                | Zneg _ => 0
                end = U).
  { subst U. destruct (e1 - e2 - e') as [|p|p] eqn:E; try lia.
    rewrite Z.shiftl_mul_pow2 by lia. reflexivity. }
  rewrite Hm'.
  pose proof (Z.mod_pos_bound U (Zpos m2) ltac:(lia)) as Hr.
  unfold Z.modulo, Z.div in *.
  destruct (Z.div_eucl U (Zpos m2)) as [q r].
  rewrite new_location_spec by lia. reflexivity.
Qed.

(** *** The level of a score *)

Lemma between_scaled Q P k m :
  0 < Q ->
  k * (Q * P) <= m * Q < (k + 1) * (Q * P) ->
  k * P <= m < (k + 1) * P.
Proof.
  intros HQ [H1 H2]. split.
  - apply (Z.mul_le_mono_pos_r _ _ Q HQ). lia.
  - apply (Z.mul_lt_mono_pos_r Q _ _ HQ). lia.
Qed.

Lemma floor_from_bounds P k m :
  0 < P -> k * P <= m < (k + 1) * P -> m / P = k.
Proof.
  intros HP [H1 H2]. symmetry.
  apply (Z.div_unique m P k (m - k * P)); [left; lia | ring].
Qed.

Lemma nearest_unscaled c a b m2 :
  0 < c ->
  (2 * m2 - 1) * (650 * c) <= 2 * (a * b * c) <= (2 * m2 + 1) * (650 * c) ->
  (2 * m2 - 1) * 650 <= 2 * (a * b) <= (2 * m2 + 1) * 650.
Proof.
  intros Hc [H1 H2]. split.
  - apply (Z.mul_le_mono_pos_r _ _ c Hc). lia.
  - apply (Z.mul_le_mono_pos_r _ _ c Hc). lia.
Qed.

(** The arithmetic of rounding a quotient by 650 to a grid [N * T] times
    finer than the integers, when the dividend [m] lives on the grid [N]:
    a nearest grid point [m2] stays inside the integer interval of the
    quotient. *)
Lemma nearest_stays_in_interval m N T k m2 :
  0 < N -> 0 < T -> 0 <= k ->
  650 * N * k <= m < 650 * N * (k + 1) ->
  (2 * m2 - 1) * 650 <= 2 * (m * T) <= (2 * m2 + 1) * 650 ->
  650 < 2 * T \/ m < 325 * N ->
  k * (N * T) <= m2 < (k + 1) * (N * T).
Proof.
  intros HN HT Hk [Hlo Hhi] [Hb1 Hb2] Hgap.
  assert (H1 : 650 * N * k * T <= m * T)
    by (apply Z.mul_le_mono_nonneg_r; lia).
  assert (H2 : (m + 1) * T <= 650 * N * (k + 1) * T)
    by (apply Z.mul_le_mono_nonneg_r; lia).
  assert (HNT : 1 <= N * T) by nia.
  split; [lia |].
  destruct Hgap as [Hgap | Hgap]; [lia |].
  assert (H3 : (m + 1) * T <= 325 * N * T)
    by (apply Z.mul_le_mono_nonneg_r; lia).
  assert (0 <= k * (N * T)) by nia.
  lia.
Qed.

Lemma POINTS_PER_LEVEL_eq :
  POINTS_PER_LEVEL = S754_finite false (650 * 2 ^ 43) (-43).
Proof. reflexivity. Qed.

(** A well-formed non-negative double below [2^53] has a non-positive
    exponent. *)
Lemma bounded_below_exponent m e :
  bounded prec emax m e = true ->
  below (S754_finite false m e) (2 ^ 53) ->
  -1074 <= e <= 0 /\ Zpos m < 2 ^ 53
  /\ (Zdigits2 (Zpos m) = 53 \/ e = -1074 /\ Zdigits2 (Zpos m) < 53).
Proof.
  unfold bounded, canonical_mantissa. intros Hb Hbelow.
  apply andb_true_iff in Hb as [Hcan _]. apply Z.eqb_eq in Hcan.
  change (Zpos (digits2_pos m)) with (Zdigits2 (Zpos m)) in Hcan.
  rewrite fexp_eq in Hcan.
  destruct (Zdigits2_bounds (Zpos m) ltac:(lia)) as [Hlo Hhi].
  assert (Hd : Zdigits2 (Zpos m) <= 53) by lia.
  assert (Zpos m < 2 ^ 53).
  { assert (2 ^ Zdigits2 (Zpos m) <= 2 ^ 53)
      by (apply Z.pow_le_mono_r; lia). lia. }
  cbn [below] in Hbelow.
  destruct (0 <=? e) eqn:E0.
  - apply Z.leb_le in E0.
    destruct (Z.eq_dec e 0) as [-> | Hne]; [lia |].
    exfalso. assert (Hd53 : Zdigits2 (Zpos m) = 53) by lia.
    rewrite Hd53 in Hlo. change (2 ^ (53 - 1)) with (2 ^ 52) in Hlo.
    assert (2 ^ 1 <= 2 ^ e) by (apply Z.pow_le_mono_r; lia).
    change (2 ^ 53) with (2 ^ 52 * 2 ^ 1) in Hbelow. nia.
  - apply Z.leb_gt in E0. lia.
Qed.

(** Dividing by [POINTS_PER_LEVEL] and rounding down agrees with the
    division of integers. *)
Lemma floor_div_POINTS_PER_LEVEL m e :
  bounded prec emax m e = true ->
  below (S754_finite false m e) (2 ^ 53) ->
  let k := Zpos m / (650 * 2 ^ (- e)) in
  floor_quotient (S754_finite false m e) 650 = Some k
  /\ 0 <= k /\ k + 1 < 2 ^ 53
  /\ integral (Math_floor (div (S754_finite false m e) POINTS_PER_LEVEL))
       false k.
Proof.
  intros Hb Hbelow k.
  destruct (bounded_below_exponent m e Hb Hbelow) as (He & Hm53 & Hshape).
  set (N := 2 ^ (- e)) in *.
  assert (HN : 0 < N) by (subst N; apply Z.pow_pos_nonneg; lia).
  assert (Hk0 : 0 <= k) by (subst k; apply Z.div_pos; lia).
  assert (Hkdiv : 650 * N * k <= Zpos m < 650 * N * (k + 1)).
  { pose proof (Z.div_mod (Zpos m) (650 * N) ltac:(lia)) as Hdm.
    pose proof (Z.mod_pos_bound (Zpos m) (650 * N) ltac:(lia)) as Hr.
    fold k in Hdm. lia. }
  assert (Hk53 : k + 1 < 2 ^ 53) by nia.
  split.
  { cbn [floor_quotient cond_Zopp]. f_equal.
    destruct (0 <=? e) eqn:E0; [| reflexivity].
    apply Z.leb_le in E0. assert (e = 0) as -> by lia.
    subst k N. cbn. f_equal; lia. }
  split; [exact Hk0 |]. split; [exact Hk53 |].
  (* the quotient and its place *)
  rewrite POINTS_PER_LEVEL_eq. unfold div, SFdiv.
  rewrite SFdiv_core_binary_spec. cbv zeta. cbn [xorb].
  change (Zdigits2 (Zpos (650 * 2 ^ 43))) with 53.
  set (d1 := Zdigits2 (Zpos m)) in *.
  destruct (Zdigits2_bounds (Zpos m) ltac:(lia)) as [Hdlo Hdhi].
  fold d1 in Hdlo, Hdhi.
  assert (Hd0 : 0 < d1) by (subst d1; cbn; lia).
  assert (Hd1 : 0 < d1 <= 53) by lia.
  rewrite fexp_eq.
  set (e' := Z.min (Z.max (d1 + e - (53 + -43) - 53) (-1074)) (e - -43)).
  assert (He' : e' = Z.max (d1 + e - 63) (-1074)) by (subst e'; lia).
  set (U := Zpos m * 2 ^ (e - -43 - e')).
  set (V := Zpos (650 * 2 ^ 43)).
  assert (HV : V = 650 * 2 ^ 43) by reflexivity.
  assert (HU : 0 <= U)
    by (subst U; assert (0 <= 2 ^ (e - -43 - e'))
          by (apply Z.pow_nonneg; lia); nia).
  destruct (binary_round_aux_spec false U V (U / V) (loc_of (U mod V) V) e')
    as (m2 & [Hround _] & Hres); try lia; try reflexivity.
  set (e1 := Z.max e' (fexp prec emax (Zdigits2 (U / V) + e'))) in *.
  (* the unit in the last place of the quotient *)
  assert (Hq : 0 <= U / V) by (apply Z.div_pos; lia).
  assert (Hdq : Zdigits2 (U / V) <= Z.max (d1 + e - 9 - e') 0).
  { apply Zdigits2_le; [exact Hq | lia |].
    assert (HU2 : U < 2 ^ (d1 + (e - -43 - e'))).
    { subst U. rewrite Z.pow_add_r by lia.
      assert (0 < 2 ^ (e - -43 - e')) by (apply Z.pow_pos_nonneg; lia).
      nia. }
    assert (Hle : U / V <= U / 2 ^ 52).
    { apply Z.div_le_compat_l; [exact HU |]. rewrite HV.
      change (2 ^ 52) with 4503599627370496.
      change (650 * 2 ^ 43) with 5717460464435200. lia. }
    pose proof (div_pow2_lt U (d1 + (e - -43 - e')) 52 HU ltac:(lia)
                  ltac:(lia) HU2) as Hlt.
    replace (d1 + (e - -43 - e') - 52) with (d1 + e - 9 - e') in Hlt by lia.
    lia. }
  assert (He1 : e' <= e1 <= Z.max (d1 + e - 62) (-1074)).
  { subst e1. rewrite fexp_eq. lia. }
  assert (He1e : e1 <= e) by lia.
  set (T := 2 ^ (e - e1)).
  assert (HT : 0 < T) by (subst T; apply Z.pow_pos_nonneg; lia).
  set (c := 2 ^ (43 + e1 - e')).
  assert (Hc : 0 < c) by (subst c; apply Z.pow_pos_nonneg; lia).
  assert (HUc : U = Zpos m * T * c).
  { subst U T c. rewrite <- Z.mul_assoc, <- Z.pow_add_r by lia.
    f_equal. f_equal. lia. }
  assert (HVc : 2 ^ (e1 - e') * V = 650 * c).
  { subst c. replace (43 + e1 - e') with (43 + (e1 - e')) by lia.
    rewrite HV, Z.pow_add_r by lia. ring. }
  destruct Hround as [Hr1 Hr2]. rewrite HVc, HUc in Hr1, Hr2.
  assert (Hnear : (2 * m2 - 1) * 650 <= 2 * (Zpos m * T)
                  <= (2 * m2 + 1) * 650)
    by (apply (nearest_unscaled c); [exact Hc | split; assumption]).
  assert (Hgap : 650 < 2 * T \/ Zpos m < 325 * N).
  { destruct (Z_le_gt_dec 9 (e - e1)) as [Hbig | Hsmall].
    - left. subst T.
      assert (2 ^ 9 <= 2 ^ (e - e1)) by (apply Z.pow_le_mono_r; lia).
      change (2 ^ 9) with 512 in *. lia.
    - right. assert (Hn : 1066 <= - e) by lia.
      assert (2 ^ 1066 <= N) by (subst N; apply Z.pow_le_mono_r; lia).
      assert (2 ^ 53 <= 2 ^ 1066) by (apply Z.pow_le_mono_r; lia).
      lia. }
  pose proof (nearest_stays_in_interval (Zpos m) N T k m2 HN HT Hk0 Hkdiv
                Hnear Hgap) as Hint.
  assert (HNT : N * T = 2 ^ (- e1)).
  { subst N T. rewrite <- Z.pow_add_r by lia. f_equal. lia. }
  rewrite HNT in Hint.
  assert (He1neg : e1 + 1 < 0) by lia.
  (* rounding down *)
  destruct Hres as [[E0 ->] | (m3 & e3 & He3 & Hm3 & _ & _ & ->)].
  - cbn [Math_floor integral]. split; [reflexivity |].
    assert (HP : 0 < 2 ^ (- e1)) by (apply Z.pow_pos_nonneg; lia).
    destruct (Z.eq_dec k 0) as [| Hk1]; [assumption |].
    assert (1 * 2 ^ (- e1) <= k * 2 ^ (- e1))
      by (apply Z.mul_le_mono_nonneg_r; lia).
    lia.
  - assert (Hfin : (e3 <=? emax - prec) = true)
      by (apply Z.leb_le; unfold emax, prec; lia).
    rewrite Hfin. cbn [Math_floor].
    assert (Hneg : (0 <=? e3) = false) by (apply Z.leb_gt; lia).
    rewrite Hneg. cbn [cond_Zopp]. rewrite Z.shiftr_div_pow2 by lia.
    assert (Hfloor : Zpos m3 / 2 ^ (- e3) = k).
    { assert (Hsplit : 2 ^ (- e1) = 2 ^ (e3 - e1) * 2 ^ (- e3))
        by (rewrite <- Z.pow_add_r by lia; f_equal; lia).
      assert (Hp1 : 0 < 2 ^ (e3 - e1)) by (apply Z.pow_pos_nonneg; lia).
      assert (Hp2 : 0 < 2 ^ (- e3)) by (apply Z.pow_pos_nonneg; lia).
      rewrite Hsplit, <- Hm3 in Hint.
      apply floor_from_bounds; [exact Hp2 |].
      apply (between_scaled (2 ^ (e3 - e1))); assumption. }
    rewrite Hfloor.
    destruct k as [|p|p] eqn:Ek; [cbn; auto | | lia].
    change (binary_normalize prec emax (Zpos p) 0 false)
      with (Number_of_bigint (Zpos p)).
    apply (Number_of_bigint_integral (Zpos p)). cbn [Z.abs]. lia.
Qed.

(** The level of a well-formed score below [2^53], as an integer. *)
Lemma calculateLevel_integral p :
  valid p = true -> below p (2 ^ 53) ->
  exists k, floor_quotient p 650 = Some k
            /\ integral (calculateLevel p) false (k + 1).
Proof.
  intros Hv Hb. destruct p as [s | s | | s m e]; cbn [below] in Hb;
    try contradiction.
  - exists 0. split; [reflexivity |].
    assert (Hone : calculateLevel (S754_zero s) = Number_of_bigint 1)
      by (destruct s; reflexivity).
    rewrite Hone. apply (Number_of_bigint_integral 1). cbn. lia.
  - destruct s; [contradiction |].
    destruct (floor_div_POINTS_PER_LEVEL m e Hv Hb) as (Hq & Hk0 & Hk & Hint).
    eexists. split; [exact Hq |].
    unfold calculateLevel. apply add_integral; [exact Hint | | lia].
    apply (Number_of_bigint_integral 1). cbn. lia.
Qed.

(** *** Signs *)

Lemma binary_round_aux_signed sx U V ex :
  0 < V -> 0 <= U ->
  signed (binary_round_aux prec emax sx (U / V) ex (loc_of (U mod V) V)) sx.
Proof.
  intros HV HU.
  destruct (binary_round_aux_spec sx U V (U / V) (loc_of (U mod V) V) ex
              HV HU eq_refl eq_refl)
    as (m2 & _ & [[_ ->] | (m3 & e3 & _ & _ & _ & _ & ->)]).
  - reflexivity.
  - destruct (e3 <=? emax - prec); reflexivity.
Qed.

Lemma Number_of_ratio_signed n d :
  0 <= n -> signed (Number_of_ratio n d) false.
Proof.
  intros Hn. unfold Number_of_ratio. destruct n as [|p|p]; [reflexivity | | lia].
  change (Z.abs (Zpos p)) with (Zpos p).
  rewrite SFdiv_core_binary_spec. cbv zeta.
  change (Zpos p <? 0) with false.
  apply binary_round_aux_signed; [lia |].
  assert (0 <= 2 ^ (0 - 0 - Z.min (fexp prec emax (Zdigits2 (Zpos p) + 0
                                     - (Zdigits2 (Zpos d) + 0))) (0 - 0)))
    by (apply Z.pow_nonneg; lia).
  nia.
Qed.

Lemma mul_signed x sx sy my ey :
  signed x sx ->
  signed (mul x (S754_finite sy my ey)) (xorb sx sy).
Proof.
  destruct x as [s | s | | s m e]; cbn [signed signbit]; try contradiction;
    intros <-; try reflexivity.
  unfold mul, SFmul.
  pose proof (binary_round_aux_signed (xorb s sy) (Zpos (m * my)) 1
                (e + ey) ltac:(lia) ltac:(lia)) as H.
  rewrite Z.div_1_r, Z.mod_1_r in H. exact H.
Qed.

(** A negative bigint of magnitude below [2^53] becomes a negative finite
    number. *)
Lemma Number_of_bigint_negative z :
  z < 0 -> Z.abs z < 2 ^ 53 ->
  exists m e, Number_of_bigint z = S754_finite true m e.
Proof.
  intros Hz Hlt. pose proof (Number_of_bigint_integral z Hlt) as H.
  assert (Hs : (z <? 0) = true) by (apply Z.ltb_lt; exact Hz).
  rewrite Hs in H.
  destruct (Number_of_bigint z) as [s | s | | s m e]; cbn [integral] in H;
    try contradiction.
  - destruct H as [_ H]. lia.
  - destruct H as (-> & _). eauto.
Qed.

Lemma signed_signbit x s : signed x s -> signbit x = s.
Proof. destruct x; cbn [signed]; [auto | auto | contradiction | auto]. Qed.

Lemma POINTS_PER_TOKEN_eq :
  POINTS_PER_TOKEN = S754_finite false 7737125245533627 (-86).
Proof. reflexivity. Qed.

(** The points of a non-negative balance held for a negative number of
    blocks carry the minus sign. *)
Lemma points_signbit b z :
  0 <= b -> z < 0 -> Z.abs z < 2 ^ 53 ->
  signbit (mul (mul (Number_of_string (formatEther b)) POINTS_PER_TOKEN)
               (Number_of_bigint z)) = true.
Proof.
  intros Hb Hz Hlt.
  destruct (Number_of_bigint_negative z Hz Hlt) as (m & e & ->).
  apply signed_signbit. rewrite POINTS_PER_TOKEN_eq.
  apply (mul_signed _ false true). apply (mul_signed _ false false).
  unfold Number_of_string, formatEther. cbn [numerator decimals].
  apply Number_of_ratio_signed. exact Hb.
Qed.
Lemma eligible_guards a :
  eligible a = true ->
  String.eqb a "" = false
  /\ String.eqb (toLowerCase a) (toLowerCase UNISWAP_POOL) = false.
Proof.
  unfold eligible. intros H. apply andb_true_iff in H as [H1 H2].
  split; apply negb_true_iff; assumption.
Qed.

(** A submission that passes the guards and gets both chain answers. *)
Lemma calculatePoints_scored env arg st w cb b :
  eligible (submitted arg st) = true ->
  blockNumber env = inr cb ->
  balanceOf env CYGAAR_ADDRESS (submitted arg st) = inr b ->
  let row := row_written env (submitted arg st) cb b in
  let tbl := points_leaderboard w in
  calculatePoints env arg (st, w) =
  (Normal tt,
   ({| address := address st;
       pointsData := Some (snapshot cb b);
       loading := false;
       error := "";
       leaderboard :=
         match upsert_fails env, select_fails env with
         | None, None => select_neq_order_limit (upsert row tbl) UNISWAP_POOL 10
         | _, _ => leaderboard st
         end;
       showPointsAnimation := true;
       showLevelUp := true |},
    {| points_leaderboard :=
         match upsert_fails env with
         | None => upsert row tbl
         | Some _ => tbl
         end;
       calls :=
         calls w
         ++ [GetBlockNumber;
             ReadContract CYGAAR_ADDRESS "balanceOf" (submitted arg st);
             Upsert row]
         ++ match upsert_fails env with
            | None => [Select UNISWAP_POOL 10]
            | Some _ => []
            end;
       console :=
         console w
         ++ match upsert_fails env, select_fails env with
            | Some e, _ => [ErrorUpdatingLeaderboard e]
            | None, Some e => [ErrorFetchingLeaderboard e]
            | None, None => []
            end |})).
Proof.
  intros Hel Hcb Hb row tbl. subst row tbl.
  apply eligible_guards in Hel as [He Hp].
  run_monad.
  destruct arg as [a|]; cbn [submitted] in *; step;
    rewrite He, Hp; step; rewrite Hcb; step;
    rewrite Hb; step;
    unfold row_written, snapshot; cbn [PointsData.points];
    destruct (upsert_fails env) as [ue|]; step;
    try destruct (select_fails env) as [se|]; step;
    rewrite <- ?app_assoc; cbn [app]; rewrite ?app_nil_r; reflexivity.
Qed.

(** A submission stopped by one of the two guards: only the error message
    changes. *)
Lemma calculatePoints_rejected env arg st w :
  eligible (submitted arg st) = false ->
  calculatePoints env arg (st, w) =
  (Normal tt,
   ({| address := address st;
       pointsData := pointsData st;
       loading := loading st;
       error := if String.eqb (submitted arg st) ""
                then "Please enter an address"
                else "This address is not eligible for points tracking";
       leaderboard := leaderboard st;
       showPointsAnimation := showPointsAnimation st;
       showLevelUp := showLevelUp st |}, w)).
Proof.
  unfold eligible. intros H. run_monad.
  destruct arg as [a|]; cbn [submitted] in *; step;
    destruct (String.eqb _ "") eqn:He; step; try reflexivity;
    cbn [negb andb] in H; apply negb_false_iff in H; rewrite H;
    reflexivity.
Qed.

(** A submission whose chain reads fail: the generic message, one console
    line, and no store call. *)
Lemma calculatePoints_chain_fails env arg st w e :
  eligible (submitted arg st) = true ->
  blockNumber env = inl e
  \/ (exists cb, blockNumber env = inr cb)
     /\ balanceOf env CYGAAR_ADDRESS (submitted arg st) = inl e ->
  let r := calculatePoints env arg (st, w) in
  error (app_after r)
  = "Error fetching data. Please check the address and try again."
  /\ loading (app_after r) = false
  /\ pointsData (app_after r) = pointsData st
  /\ points_leaderboard (world_after r) = points_leaderboard w
  /\ console_during w r = [Caught e]
  /\ (forall c, c ∈ calls_during w r ->
        c = GetBlockNumber
        \/ c = ReadContract CYGAAR_ADDRESS "balanceOf" (submitted arg st)).
Proof.
  intros Hel Hfail r. subst r.
  apply eligible_guards in Hel as [He Hp].
  unfold calls_during, console_during, app_after, world_after.
  run_monad.
  destruct arg as [a|]; cbn [submitted] in *; step;
    rewrite He, Hp; step;
    (destruct Hfail as [Hcb | [[cb Hcb] Hb]]; rewrite Hcb; step;
     [| rewrite Hb; step]);
    cbn [error loading pointsData points_leaderboard console calls];
    rewrite ?drop_app_length; rewrite <- ?app_assoc;
    rewrite ?drop_app_length;
    (repeat split; try reflexivity; intros c Hc;
     repeat (apply elem_of_cons in Hc as [-> | Hc]; [tauto |]);
     apply elem_of_nil in Hc; contradiction).
Qed.

Lemma toLowerCase_nonempty a : String.eqb a "" = false ->
  String.eqb (toLowerCase a) "" = false.
Proof. destruct a; [discriminate | reflexivity]. Qed.

(** Eligibility looks at the lowercase form only. *)
Lemma eligible_same_lowercase a1 a2 :
  toLowerCase a1 = toLowerCase a2 -> eligible a1 = eligible a2.
Proof.
  intros H. unfold eligible. rewrite H. f_equal.
  destruct a1, a2; try reflexivity; discriminate.
Qed.

(** *** The leaderboard query *)

#[global] Instance points_desc_total : Total points_desc.
Proof. intros a b. unfold points_desc. lia. Qed.

#[global] Instance points_desc_trans : Transitive points_desc.
Proof. intros a b c. unfold points_desc. lia. Qed.

Lemma StronglySorted_take {A} (R : relation A) n (l : list A) :
  StronglySorted R l -> StronglySorted R (take n l).
Proof.
  intros H. rewrite <- (take_drop n l) in H.
  exact (StronglySorted_app_1_l R _ _ H).
Qed.

(** What the query gives on any table: at most [n] rows of the table, none
    of them with exactly the address [a], by points descending. *)
Lemma select_neq_order_limit_spec tbl a n :
  let data := select_neq_order_limit tbl a n in
  (length data <= n)%nat
  /\ StronglySorted points_desc data
  /\ (forall r, r ∈ data ->
        LeaderboardEntry.address r <> a
        /\ exists k, tbl !! k = Some r).
Proof.
  unfold select_neq_order_limit. cbv zeta. split; [| split].
  - rewrite length_take. lia.
  - apply StronglySorted_take, StronglySorted_merge_sort; apply _.
  - intros r Hr. apply subseteq_take in Hr.
    rewrite merge_sort_Permutation in Hr.
    apply list_elem_of_filter in Hr as [Hne Hr]. split; [exact Hne |].
    unfold rows in Hr. apply list_elem_of_fmap in Hr as [[k r'] [-> Hr]].
    exists k. apply elem_of_map_to_list in Hr. exact Hr.
Qed.

(** [fetchLeaderboard] sends one query; on an answer it shows it, on an
    error it logs and keeps the list shown before. *)
Lemma fetchLeaderboard_result env st w :
  fetchLeaderboard env (st, w) =
  (Normal tt,
   (match select_fails env with
    | None =>
      {| address := address st; pointsData := pointsData st;
         loading := loading st; error := error st;
         leaderboard :=
           select_neq_order_limit (points_leaderboard w) UNISWAP_POOL 10;
         showPointsAnimation := showPointsAnimation st;
         showLevelUp := showLevelUp st |}
    | Some _ => st
    end,
    {| points_leaderboard := points_leaderboard w;
       calls := calls w ++ [Select UNISWAP_POOL 10];
       console := console w ++ match select_fails env with
                               | Some e => [ErrorFetchingLeaderboard e]
                               | None => []
                               end |})).
Proof.
  run_monad. destruct (select_fails env); step;
    rewrite ?app_nil_r; reflexivity.
Qed.

(** The list shown after a refresh that was answered. *)
Lemma fetchLeaderboard_shown env st w :
  select_fails env = None ->
  let shown := leaderboard (app_after (fetchLeaderboard env (st, w))) in
  (length shown <= 10)%nat
  /\ StronglySorted points_desc shown
  /\ (forall r, r ∈ shown -> LeaderboardEntry.address r <> UNISWAP_POOL).
Proof.
  intros Hsel. rewrite fetchLeaderboard_result, Hsel.
  unfold app_after. cbn [fst snd leaderboard]. cbv zeta.
  destruct (select_neq_order_limit_spec (points_leaderboard w)
              UNISWAP_POOL 10) as (Hlen & Hsort & Hin).
  split; [exact Hlen | split; [exact Hsort |]].
  intros r Hr. exact (proj1 (Hin r Hr)).
Qed.

(** ** The guards *)

(** C3: an empty address, or one that equals the excluded pool address up
    to letter case, sets a validation message for the user and returns
    with no call to the chain reader or to the store: the world (table,
    calls, console) is the one before, and the snapshot is untouched. *)
Theorem validation_short_circuits env arg st w :
  submitted arg st = ""
  \/ toLowerCase (submitted arg st) = toLowerCase UNISWAP_POOL ->
  let r := calculatePoints env arg (st, w) in
  r.1 = Normal tt
  /\ error (app_after r)
     = (if String.eqb (submitted arg st) ""
        then "Please enter an address"
        else "This address is not eligible for points tracking")
  /\ error (app_after r) <> ""
  /\ calls_during w r = []
  /\ world_after r = w
  /\ pointsData (app_after r) = pointsData st
  /\ loading (app_after r) = loading st.
Proof.
  intros H r. subst r.
  assert (Hel : eligible (submitted arg st) = false).
  { unfold eligible. destruct H as [-> | ->]; [reflexivity |].
    rewrite String.eqb_refl. apply andb_false_r. }
  unfold calls_during. rewrite (calculatePoints_rejected _ _ _ _ Hel).
  unfold app_after, world_after. cbn [fst snd error pointsData loading].
  rewrite drop_all.
  repeat split; try reflexivity.
  destruct (String.eqb _ ""); discriminate.
Qed.

Lemma validation_short_circuits_witness :
  let r := calculatePoints (chain_at 300000 (10 ^ 18) None None)
             (Some "0XBE01179F2291773D220EAE55EE85B417F40342D0")
             (idle, untouched) in
  error (app_after r) = "This address is not eligible for points tracking"
  /\ calls_during untouched r = [].
Proof.
  pose proof (validation_short_circuits
                (chain_at 300000 (10 ^ 18) None None)
                (Some "0XBE01179F2291773D220EAE55EE85B417F40342D0")
                idle untouched (or_intror eq_refl)) as H.
  cbv zeta in H. destruct H as (_ & He & _ & Hc & _).
  split; [exact He | exact Hc].
Defined.

(** ** A failing upsert *)

(** C4: when the chain reads succeed and the upsert answers with a store
    error, the snapshot stays set and shown, the error message of the
    state is empty, and the failure only reaches the console; the table is
    unchanged and no refresh is sent. *)
Theorem upsert_failure_keeps_snapshot env arg st w cb b e :
  eligible (submitted arg st) = true ->
  blockNumber env = inr cb ->
  balanceOf env CYGAAR_ADDRESS (submitted arg st) = inr b ->
  upsert_fails env = Some e ->
  let r := calculatePoints env arg (st, w) in
  r.1 = Normal tt
  /\ pointsData (app_after r) = Some (snapshot cb b)
  /\ showPointsAnimation (app_after r) = true
  /\ showLevelUp (app_after r) = true
  /\ error (app_after r) = ""
  /\ loading (app_after r) = false
  /\ console_during w r = [ErrorUpdatingLeaderboard e]
  /\ points_leaderboard (world_after r) = points_leaderboard w
  /\ leaderboard (app_after r) = leaderboard st.
Proof.
  intros Hel Hcb Hb Hup r. subst r.
  unfold console_during.
  rewrite (calculatePoints_scored _ _ _ _ _ _ Hel Hcb Hb).
  rewrite Hup. unfold app_after, world_after.
  cbn [fst snd pointsData showPointsAnimation showLevelUp error loading
       console points_leaderboard leaderboard].
  rewrite drop_app_length. repeat split; reflexivity.
Qed.

Lemma upsert_failure_keeps_snapshot_witness :
  let r := calculatePoints (chain_at 267810 (10 ^ 24) (Some store_down) None)
             (Some holder) (idle, untouched) in
  pointsData (app_after r) = Some (snapshot 267810 (10 ^ 24))
  /\ error (app_after r) = ""
  /\ console_during untouched r = [ErrorUpdatingLeaderboard store_down].
Proof.
  pose proof (upsert_failure_keeps_snapshot
                (chain_at 267810 (10 ^ 24) (Some store_down) None)
                (Some holder) idle untouched 267810 (10 ^ 24) store_down
                eq_refl eq_refl eq_refl eq_refl) as H.
  cbv zeta in H. destruct H as (_ & Hp & _ & _ & He & _ & Hc & _).
  split; [exact Hp | split; [exact He | exact Hc]].
Defined.

(** ** The key of a stored row *)

(** C6: the row a submission writes is keyed by the lowercase form of the
    submitted address; a second submission whose address differs from the
    first in letter case only replaces that same row, and the table gains
    no other key. *)
Theorem stored_key_is_lowercase env1 env2 a1 a2 st1 st2 w cb1 b1 cb2 b2 :
  eligible a1 = true ->
  toLowerCase a1 = toLowerCase a2 ->
  blockNumber env1 = inr cb1 ->
  balanceOf env1 CYGAAR_ADDRESS a1 = inr b1 ->
  upsert_fails env1 = None ->
  blockNumber env2 = inr cb2 ->
  balanceOf env2 CYGAAR_ADDRESS a2 = inr b2 ->
  upsert_fails env2 = None ->
  let r1 := calculatePoints env1 (Some a1) (st1, w) in
  let r2 := calculatePoints env2 (Some a2) (st2, world_after r1) in
  let row1 := row_written env1 a1 cb1 b1 in
  let row2 := row_written env2 a2 cb2 b2 in
  LeaderboardEntry.address row1 = toLowerCase a1
  /\ LeaderboardEntry.address row2 = toLowerCase a1
  /\ points_leaderboard (world_after r1)
     = <[toLowerCase a1 := row1]> (points_leaderboard w)
  /\ points_leaderboard (world_after r2)
     = <[toLowerCase a1 := row2]> (points_leaderboard w)
  /\ dom (points_leaderboard (world_after r2))
     = dom (points_leaderboard (world_after r1)).
Proof.
  intros Hel Hlow Hcb1 Hb1 Hup1 Hcb2 Hb2 Hup2 r1 r2 row1 row2.
  assert (Hel2 : eligible a2 = true)
    by (rewrite <- (eligible_same_lowercase _ _ Hlow); exact Hel).
  subst r1 r2 row1 row2.
  rewrite (calculatePoints_scored env1 (Some a1) st1 w cb1 b1 Hel Hcb1 Hb1).
  rewrite Hup1. unfold world_after. cbn [fst snd submitted].
  rewrite (calculatePoints_scored env2 (Some a2) _ _ cb2 b2 Hel2 Hcb2 Hb2).
  rewrite Hup2. cbn [fst snd points_leaderboard submitted].
  unfold upsert, row_written. cbn [LeaderboardEntry.address].
  rewrite <- Hlow. rewrite insert_insert_eq.
  repeat split; try reflexivity.
  rewrite !dom_insert_L. reflexivity.
Qed.

Lemma stored_key_is_lowercase_witness :
  let env := chain_at 267810 (10 ^ 24) None None in
  let r1 := calculatePoints env (Some holder) (idle, untouched) in
  let r2 := calculatePoints env (Some holder_lowercase)
              (idle, world_after r1) in
  points_leaderboard (world_after r2)
  = <[holder_lowercase := row_written env holder_lowercase 267810 (10 ^ 24)]>
      (points_leaderboard untouched).
Proof.
  pose proof (stored_key_is_lowercase
                (chain_at 267810 (10 ^ 24) None None)
                (chain_at 267810 (10 ^ 24) None None)
                holder holder_lowercase idle idle untouched
                267810 (10 ^ 24) 267810 (10 ^ 24)
                eq_refl eq_refl eq_refl eq_refl eq_refl eq_refl eq_refl
                eq_refl) as H.
  cbv zeta in H. destruct H as (_ & _ & _ & H & _). exact H.
Defined.

(** ** Purity of the score *)

(** C8: the snapshot of a scored submission is a function of the balance
    and the block height alone.  Two runs that read the same balance and
    the same height end with the same points and the same level, whatever
    the two addresses, states, tables, store answers and clocks are. *)
Theorem score_depends_on_chain_reads_only
  env1 env2 arg1 arg2 st1 st2 w1 w2 cb b :
  eligible (submitted arg1 st1) = true ->
  eligible (submitted arg2 st2) = true ->
  blockNumber env1 = inr cb ->
  blockNumber env2 = inr cb ->
  balanceOf env1 CYGAAR_ADDRESS (submitted arg1 st1) = inr b ->
  balanceOf env2 CYGAAR_ADDRESS (submitted arg2 st2) = inr b ->
  let r1 := calculatePoints env1 arg1 (st1, w1) in
  let r2 := calculatePoints env2 arg2 (st2, w2) in
  exists pd,
    pointsData (app_after r1) = Some pd
    /\ pointsData (app_after r2) = Some pd
    /\ PointsData.points pd
       = mul (mul (Number_of_string (formatEther b)) POINTS_PER_TOKEN)
             (Number_of_bigint (cb - START_BLOCK))
    /\ PointsData.level pd = calculateLevel (PointsData.points pd).
Proof.
  intros Hel1 Hel2 Hcb1 Hcb2 Hb1 Hb2 r1 r2. subst r1 r2.
  rewrite (calculatePoints_scored _ _ _ _ _ _ Hel1 Hcb1 Hb1).
  rewrite (calculatePoints_scored _ _ _ _ _ _ Hel2 Hcb2 Hb2).
  exists (snapshot cb b). repeat split; reflexivity.
Qed.

Lemma score_depends_on_chain_reads_only_witness :
  let r1 := calculatePoints (chain_at 267810 (10 ^ 24) None None)
              (Some holder) (idle, untouched) in
  let r2 := calculatePoints
              (chain_at 267810 (10 ^ 24) (Some store_down) (Some store_down))
              (Some holder_lowercase) (idle, world_with_pool_row) in
  pointsData (app_after r1) = pointsData (app_after r2).
Proof.
  pose proof (score_depends_on_chain_reads_only
                (chain_at 267810 (10 ^ 24) None None)
                (chain_at 267810 (10 ^ 24) (Some store_down) (Some store_down))
                (Some holder) (Some holder_lowercase) idle idle
                untouched world_with_pool_row 267810 (10 ^ 24)
                eq_refl eq_refl eq_refl eq_refl eq_refl eq_refl) as H.
  cbv zeta in H |- *. destruct H as (pd & H1 & H2 & _).
  rewrite H1, H2. reflexivity.
Defined.

(** ** Display and storage *)

(** C10: a scored submission sends exactly one upsert, and the points of
    its row are the points of the snapshot put in the state; when the
    upsert succeeds the table holds that row under the lowercase address. *)
Theorem stored_points_are_displayed_points env arg st w cb b :
  eligible (submitted arg st) = true ->
  blockNumber env = inr cb ->
  balanceOf env CYGAAR_ADDRESS (submitted arg st) = inr b ->
  let r := calculatePoints env arg (st, w) in
  exists pd row,
    pointsData (app_after r) = Some pd
    /\ Upsert row ∈ calls_during w r
    /\ (forall row', Upsert row' ∈ calls_during w r -> row' = row)
    /\ LeaderboardEntry.points row = PointsData.points pd
    /\ (upsert_fails env = None ->
        points_leaderboard (world_after r)
        !! toLowerCase (submitted arg st) = Some row).
Proof.
  intros Hel Hcb Hb r. subst r.
  unfold calls_during.
  rewrite (calculatePoints_scored _ _ _ _ _ _ Hel Hcb Hb).
  unfold app_after, world_after.
  cbn [fst snd pointsData calls points_leaderboard].
  rewrite drop_app_length.
  exists (snapshot cb b), (row_written env (submitted arg st) cb b).
  split; [reflexivity |]. split.
  { apply elem_of_app. left. apply elem_of_cons. right.
    apply elem_of_cons. right. apply list_elem_of_singleton. reflexivity. }
  split.
  { intros row' Hin. apply elem_of_app in Hin as [Hin | Hin].
    - repeat (apply elem_of_cons in Hin as [Hin | Hin];
              [try discriminate; injection Hin as ->; reflexivity |]).
      apply elem_of_nil in Hin. contradiction.
    - destruct (upsert_fails env).
      + apply elem_of_nil in Hin. contradiction.
      + apply list_elem_of_singleton in Hin. discriminate. }
  split; [reflexivity |].
  intros ->. unfold upsert, row_written. cbn [LeaderboardEntry.address].
  apply lookup_insert_eq.
Qed.

Lemma stored_points_are_displayed_points_witness :
  let r := calculatePoints (chain_at 267810 (10 ^ 24) None None)
             (Some holder) (idle, untouched) in
  exists pd row,
    pointsData (app_after r) = Some pd
    /\ points_leaderboard (world_after r) !! holder_lowercase = Some row
    /\ LeaderboardEntry.points row = PointsData.points pd.
Proof.
  pose proof (stored_points_are_displayed_points
                (chain_at 267810 (10 ^ 24) None None)
                (Some holder) idle untouched 267810 (10 ^ 24)
                eq_refl eq_refl eq_refl) as H.
  cbv zeta in H. destruct H as (pd & row & H1 & _ & _ & H2 & H3).
  exists pd, row. split; [exact H1 |]. split; [exact (H3 eq_refl) | exact H2].
Defined.

(** ** The leaderboard *)

(** C5: the query compares the stored address with the mixed-case constant
    [UNISWAP_POOL] letter for letter, while the component stores addresses
    in lowercase.  On a table that holds the pool address in lowercase the
    refresh is answered without error and shows that row: an entry whose
    address is the pool address up to letter case. *)
Theorem fetchLeaderboard_shows_lowercase_pool_row :
  let r := fetchLeaderboard (chain_at 300000 0 None None)
             (idle, world_with_pool_row) in
  console_during world_with_pool_row r = []
  /\ leaderboard (app_after r) = [pool_row]
  /\ toLowerCase (LeaderboardEntry.address pool_row)
     = toLowerCase UNISWAP_POOL
  /\ points_leaderboard world_with_pool_row
     !! toLowerCase UNISWAP_POOL = Some pool_row.
Proof. vm_compute. repeat split; reflexivity. Qed.

(** ** The scoring rule *)



(** C2, amended: for every well-formed score [0 <= points < 2^53] the
    double computation [Math.floor(points / 650) + 1] gives the integer
    [floor (points / 650) + 1] of exact arithmetic; [0] gives level [1],
    [650] level [2] and [649.999] level [1].  Above [2^53] the doubles
    round, and the equation of the claim fails (see the lemma after the
    next). *)
Theorem level_is_floor_plus_one_below_2_53 :
  (forall points,
     valid points = true -> below points (2 ^ 53) ->
     exists k, floor_quotient points 650 = Some k
               /\ to_integer (calculateLevel points) = Some (k + 1))
  /\ calculateLevel (Number_of_bigint 0) = Number_of_bigint 1
  /\ calculateLevel (Number_of_bigint 650) = Number_of_bigint 2
  /\ calculateLevel (Number_of_ratio 649999 1000) = Number_of_bigint 1.
Proof.
  split.
  - intros points Hv Hb.
    destruct (calculateLevel_integral points Hv Hb) as (k & Hq & Hint).
    exists k. split; [exact Hq |].
    exact (to_integer_integral _ _ _ Hint).
  - repeat split; vm_compute; reflexivity.
Qed.

Lemma level_is_floor_plus_one_below_2_53_witness :
  let points := Number_of_bigint (2 ^ 53 - 1) in
  floor_quotient points 650 = Some 13857229622678
  /\ to_integer (calculateLevel points) = Some 13857229622679.
Proof.
  cbv zeta.
  destruct level_is_floor_plus_one_below_2_53 as (H & _).
  destruct (H (Number_of_bigint (2 ^ 53 - 1))) as (k & Hq & Hl).
  - vm_compute. reflexivity.
  - vm_compute. reflexivity.
  - split; [vm_compute; reflexivity |].
    rewrite Hl. vm_compute in Hq. injection Hq as <-. reflexivity.
Defined.

(** C2, as stated for every non-negative score, fails.  At
    [points = 650 * 2^53] the quotient is [2^53] and [2^53 + 1] is no
    double, so the level is [2^53], one short of
    [floor (points / 650) + 1].  Such scores are within reach of
    [calculatePoints]: [10^26] tokens held for [10000] blocks score
    [10^20] points and level [153846153846153856], where
    [floor (points / 650) + 1] is [153846153846153847]. *)
Lemma level_is_not_floor_plus_one_above_2_53 :
  let points := Number_of_bigint (650 * 2 ^ 53) in
  let r := calculatePoints (chain_at 267810 (10 ^ 44) None None)
             (Some holder) (idle, untouched) in
  (valid points = true
   /\ signbit points = false
   /\ floor_quotient points 650 = Some (2 ^ 53)
   /\ to_integer (calculateLevel points) = Some (2 ^ 53)
   /\ ~ (exists k, floor_quotient points 650 = Some k
                   /\ to_integer (calculateLevel points) = Some (k + 1)))
  /\ (exists pd,
        pointsData (app_after r) = Some pd
        /\ error (app_after r) = ""
        /\ to_integer (PointsData.points pd) = Some (10 ^ 20)
        /\ floor_quotient (PointsData.points pd) 650
           = Some 153846153846153846
        /\ to_integer (PointsData.level pd) = Some 153846153846153856).
Proof.
  cbv zeta. split.
  - repeat split; try (vm_compute; reflexivity).
    intros (k & Hq & Hl). vm_compute in Hq, Hl.
    injection Hq as <-. discriminate Hl.
  - rewrite (calculatePoints_scored (chain_at 267810 (10 ^ 44) None None)
               (Some holder) idle untouched 267810 (10 ^ 44)
               eq_refl eq_refl eq_refl).
    exists (snapshot 267810 (10 ^ 44)).
    repeat split; vm_compute; reflexivity.
Qed.

(** ** Blocks held *)

(** C9: the blocks held are the current block height minus the constant
    [START_BLOCK = 257810], whatever the address: two scored submissions at
    the same height get the same [blocksHeld], and below [2^53] it is the
    integer [currentBlock - 257810] itself. *)
Theorem blocksHeld_counts_from_START_BLOCK
  env1 env2 arg1 arg2 st1 st2 w1 w2 cb b1 b2 :
  eligible (submitted arg1 st1) = true ->
  eligible (submitted arg2 st2) = true ->
  blockNumber env1 = inr cb ->
  blockNumber env2 = inr cb ->
  balanceOf env1 CYGAAR_ADDRESS (submitted arg1 st1) = inr b1 ->
  balanceOf env2 CYGAAR_ADDRESS (submitted arg2 st2) = inr b2 ->
  let r1 := calculatePoints env1 arg1 (st1, w1) in
  let r2 := calculatePoints env2 arg2 (st2, w2) in
  START_BLOCK = 257810
  /\ exists pd1 pd2,
       pointsData (app_after r1) = Some pd1
       /\ pointsData (app_after r2) = Some pd2
       /\ PointsData.blocksHeld pd1 = Number_of_bigint (cb - 257810)
       /\ PointsData.blocksHeld pd2 = PointsData.blocksHeld pd1
       /\ (Z.abs (cb - 257810) < 2 ^ 53 ->
           to_integer (PointsData.blocksHeld pd1) = Some (cb - 257810)).
Proof.
  intros Hel1 Hel2 Hcb1 Hcb2 Hb1 Hb2 r1 r2. subst r1 r2.
  rewrite (calculatePoints_scored _ _ _ _ _ _ Hel1 Hcb1 Hb1).
  rewrite (calculatePoints_scored _ _ _ _ _ _ Hel2 Hcb2 Hb2).
  split; [reflexivity |].
  exists (snapshot cb b1), (snapshot cb b2).
  repeat split; try reflexivity.
  intros Hlt. apply Number_of_bigint_exact. exact Hlt.
Qed.

Lemma blocksHeld_counts_from_START_BLOCK_witness :
  let r1 := calculatePoints (chain_at 300000 (10 ^ 24) None None)
              (Some holder) (idle, untouched) in
  let r2 := calculatePoints (chain_at 300000 5 None None)
              (Some CYGAAR_ADDRESS) (idle, untouched) in
  exists pd1 pd2,
    pointsData (app_after r1) = Some pd1
    /\ pointsData (app_after r2) = Some pd2
    /\ PointsData.blocksHeld pd2 = PointsData.blocksHeld pd1
    /\ to_integer (PointsData.blocksHeld pd1) = Some 42190.
Proof.
  pose proof (blocksHeld_counts_from_START_BLOCK
                (chain_at 300000 (10 ^ 24) None None)
                (chain_at 300000 5 None None)
                (Some holder) (Some CYGAAR_ADDRESS) idle idle
                untouched untouched 300000 (10 ^ 24) 5
                eq_refl eq_refl eq_refl eq_refl eq_refl eq_refl) as H.
  cbv zeta in H. destruct H as (_ & pd1 & pd2 & H1 & H2 & _ & Heq & Hex).
  exists pd1, pd2. repeat split; try assumption.
  apply Hex. vm_compute. reflexivity.
Defined.

(** C7, as the code has it: a block height below [START_BLOCK] is not
    checked.  The submission is scored like any other: no error message is
    set, [blocksHeld] is the negative integer [currentBlock - START_BLOCK],
    the points of a non-negative balance carry the minus sign, and the
    snapshot is shown and sent to the store. *)
Theorem negative_blocksHeld_is_scored env arg st w cb b :
  eligible (submitted arg st) = true ->
  blockNumber env = inr cb ->
  balanceOf env CYGAAR_ADDRESS (submitted arg st) = inr b ->
  0 <= cb < START_BLOCK ->
  0 <= b ->
  let r := calculatePoints env arg (st, w) in
  r.1 = Normal tt
  /\ error (app_after r) = ""
  /\ exists pd,
       pointsData (app_after r) = Some pd
       /\ to_integer (PointsData.blocksHeld pd) = Some (cb - START_BLOCK)
       /\ signbit (PointsData.blocksHeld pd) = true
       /\ PointsData.points pd
          = mul (mul (Number_of_string (formatEther b)) POINTS_PER_TOKEN)
                (PointsData.blocksHeld pd)
       /\ signbit (PointsData.points pd) = true
       /\ Upsert (row_written env (submitted arg st) cb b) ∈ calls_during w r
       /\ LeaderboardEntry.points (row_written env (submitted arg st) cb b)
          = PointsData.points pd.
Proof.
  intros Hel Hcb Hb Hrange Hb0 r. subst r.
  unfold calls_during.
  rewrite (calculatePoints_scored _ _ _ _ _ _ Hel Hcb Hb).
  unfold app_after, world_after. cbn [fst snd error pointsData calls].
  rewrite drop_app_length.
  assert (Hz : cb - START_BLOCK < 0) by lia.
  assert (Hlt : Z.abs (cb - START_BLOCK) < 2 ^ 53)
    by (unfold START_BLOCK in *; lia).
  split; [reflexivity |]. split; [reflexivity |].
  exists (snapshot cb b). unfold snapshot. cbn [PointsData.blocksHeld
    PointsData.points].
  split; [reflexivity |].
  split; [apply Number_of_bigint_exact; exact Hlt |].
  split.
  { destruct (Number_of_bigint_negative _ Hz Hlt) as (m & e & ->).
    reflexivity. }
  split; [reflexivity |].
  split; [apply points_signbit; assumption |].
  split; [| reflexivity].
  apply elem_of_app. left. apply elem_of_cons. right.
  apply elem_of_cons. right. apply list_elem_of_singleton. reflexivity.
Qed.

Lemma negative_blocksHeld_is_scored_witness :
  let r := calculatePoints (chain_at 200000 (10 ^ 18) None None)
             (Some holder) (idle, untouched) in
  error (app_after r) = ""
  /\ exists pd,
       pointsData (app_after r) = Some pd
       /\ to_integer (PointsData.blocksHeld pd) = Some (-57810)
       /\ signbit (PointsData.points pd) = true.
Proof.
  pose proof (negative_blocksHeld_is_scored
                (chain_at 200000 (10 ^ 18) None None)
                (Some holder) idle untouched 200000 (10 ^ 18)
                eq_refl eq_refl eq_refl) as H.
  destruct H as (_ & He & pd & Hpd & Hbh & _ & _ & Hs & _).
  - vm_compute. split; [discriminate | reflexivity].
  - vm_compute. discriminate.
  - split; [exact He |]. exists pd. auto.
Defined.

(** C7, as stated, fails: at block 200000, which is before [START_BLOCK],
    a holder of one token is scored without any error message; the
    snapshot and the stored row carry [-57810] blocks and negative
    points. *)
Lemma negative_blocksHeld_not_rejected :
  let r := calculatePoints (chain_at 200000 (10 ^ 18) None None)
             (Some holder) (idle, untouched) in
  200000 < START_BLOCK
  /\ ~ (error (app_after r) <> "" /\ pointsData (app_after r) = None)
  /\ error (app_after r) = ""
  /\ pointsData (app_after r)
     = Some {| PointsData.balance := "1.00";
               PointsData.points :=
                 S754_finite true 6825000159367355 (-70);
               PointsData.blocksHeld := Number_of_bigint (-57810);
               PointsData.level := Number_of_bigint 0 |}
  /\ points_leaderboard (world_after r) !! holder_lowercase
     = Some {| LeaderboardEntry.address := holder_lowercase;
               LeaderboardEntry.points :=
                 S754_finite true 6825000159367355 (-70);
               LeaderboardEntry.last_updated := now (chain_at 0 0 None None) |}.
Proof.
  cbv zeta. split; [reflexivity |]. split.
  - intros [He _]. apply He. vm_compute. reflexivity.
  - vm_compute. repeat split; reflexivity.
Qed.

(** * Further properties of the component *)

(** ** Every path of a submission *)

Lemma calculatePoints_block_fails env arg st w e :
  eligible (submitted arg st) = true ->
  blockNumber env = inl e ->
  calculatePoints env arg (st, w) =
  (Normal tt,
   ({| address := address st;
       pointsData := pointsData st;
       loading := false;
       error := "Error fetching data. Please check the address and try again.";
       leaderboard := leaderboard st;
       showPointsAnimation := false;
       showLevelUp := false |},
    {| points_leaderboard := points_leaderboard w;
       calls := calls w ++ [GetBlockNumber];
       console := console w ++ [Caught e] |})).
Proof.
  intros Hel Hcb. apply eligible_guards in Hel as [He Hp]. run_monad.
  destruct arg as [a|]; cbn [submitted] in *; step;
    rewrite He, Hp; step; rewrite Hcb; step; reflexivity.
Qed.

Lemma calculatePoints_balance_fails env arg st w cb e :
  eligible (submitted arg st) = true ->
  blockNumber env = inr cb ->
  balanceOf env CYGAAR_ADDRESS (submitted arg st) = inl e ->
  calculatePoints env arg (st, w) =
  (Normal tt,
   ({| address := address st;
       pointsData := pointsData st;
       loading := false;
       error := "Error fetching data. Please check the address and try again.";
       leaderboard := leaderboard st;
       showPointsAnimation := false;
       showLevelUp := false |},
    {| points_leaderboard := points_leaderboard w;
       calls := calls w
                ++ [GetBlockNumber;
                    ReadContract CYGAAR_ADDRESS "balanceOf" (submitted arg st)];
       console := console w ++ [Caught e] |})).
Proof.
  intros Hel Hcb Hb. apply eligible_guards in Hel as [He Hp]. run_monad.
  destruct arg as [a|]; cbn [submitted] in *; step;
    rewrite He, Hp; step; rewrite Hcb; step; rewrite Hb; step;
    rewrite <- ?app_assoc; reflexivity.
Qed.

(** The four ways a submission can go, each with its final state. *)
Ltac paths env arg st w :=
  let Hel := fresh "Hel" in
  let Hcb := fresh "Hcb" in
  let Hb := fresh "Hb" in
  destruct (eligible (submitted arg st)) eqn:Hel;
  [ destruct (blockNumber env) as [?e | ?cb] eqn:Hcb;
    [ rewrite (calculatePoints_block_fails env arg st w _ Hel Hcb)
    | destruct (balanceOf env CYGAAR_ADDRESS (submitted arg st))
        as [?e | ?b] eqn:Hb;
      [ rewrite (calculatePoints_balance_fails env arg st w _ _ Hel Hcb Hb)
      | rewrite (calculatePoints_scored env arg st w _ _ Hel Hcb Hb) ] ]
  | rewrite (calculatePoints_rejected env arg st w Hel) ].

(** X1: [calculatePoints] never throws: whatever the chain client throws is
    caught, and the promise of a submission always resolves. *)
Theorem calculatePoints_never_throws env arg st w :
  (calculatePoints env arg (st, w)).1 = Normal tt.
Proof. paths env arg st w; reflexivity. Qed.

(** X2: after a submission that passed the two guards the [loading] flag is
    off, whether the chain reads or the store calls failed or not; a
    submission stopped by a guard leaves the flag as it was. *)
Theorem loading_is_off_after_submission env arg st w :
  loading (app_after (calculatePoints env arg (st, w)))
  = if eligible (submitted arg st) then false else loading st.
Proof. paths env arg st w; reflexivity. Qed.

(** X3: the error message is empty after a submission exactly when the
    address passed the guards and both chain reads were answered; the
    store's answers play no part. *)
Theorem error_is_empty_iff_scored env arg st w :
  error (app_after (calculatePoints env arg (st, w))) = ""
  <-> eligible (submitted arg st) = true
      /\ (exists cb, blockNumber env = inr cb)
      /\ (exists b, balanceOf env CYGAAR_ADDRESS (submitted arg st) = inr b).
Proof.
  paths env arg st w; unfold app_after; cbn [fst snd error]; split;
    try discriminate; try (intros _; eauto; fail);
    try (intros (_ & [? ?] & [? ?]); discriminate);
    try (intros (? & _); discriminate).
  - destruct (String.eqb _ ""); discriminate.
Qed.

Lemma error_is_empty_iff_scored_witness :
  error (app_after (calculatePoints (chain_at 267810 (10 ^ 24) None None)
                      (Some holder) (showing_snapshot, untouched))) = ""
  /\ error (app_after (calculatePoints (chain_down node_down)
                         (Some holder) (idle, untouched))) <> "".
Proof.
  split.
  - apply (error_is_empty_iff_scored (chain_at 267810 (10 ^ 24) None None)
             (Some holder) showing_snapshot untouched).
    split; [reflexivity |]. split; eexists; reflexivity.
  - intros H.
    apply (error_is_empty_iff_scored (chain_down node_down)
             (Some holder) idle untouched) in H.
    destruct H as (_ & [cb Hcb] & _). discriminate.
Defined.

(** X4: when a chain read fails, the snapshot that was on display stays,
    with both animation flags off and the generic message beside it; the
    store is neither written nor queried, and the error goes to the
    console once. *)
Theorem chain_failure_keeps_previous_snapshot env arg st w e :
  eligible (submitted arg st) = true ->
  blockNumber env = inl e
  \/ (exists cb, blockNumber env = inr cb)
     /\ balanceOf env CYGAAR_ADDRESS (submitted arg st) = inl e ->
  let r := calculatePoints env arg (st, w) in
  pointsData (app_after r) = pointsData st
  /\ showPointsAnimation (app_after r) = false
  /\ showLevelUp (app_after r) = false
  /\ error (app_after r)
     = "Error fetching data. Please check the address and try again."
  /\ leaderboard (app_after r) = leaderboard st
  /\ points_leaderboard (world_after r) = points_leaderboard w
  /\ console_during w r = [Caught e]
  /\ (forall row, Upsert row ∉ calls_during w r)
  /\ (forall a n, Select a n ∉ calls_during w r).
Proof.
  intros Hel Hfail r. subst r. unfold calls_during, console_during.
  destruct Hfail as [Hcb | [[cb Hcb] Hb]];
    [rewrite (calculatePoints_block_fails _ _ _ _ _ Hel Hcb)
    | rewrite (calculatePoints_balance_fails _ _ _ _ _ _ Hel Hcb Hb)];
    unfold app_after, world_after; step; rewrite !drop_app_length;
    (repeat split; try reflexivity;
     intros; intros Hin;
     repeat (apply elem_of_cons in Hin as [Hin | Hin]; [discriminate |]);
     apply elem_of_nil in Hin; contradiction).
Qed.

Lemma chain_failure_keeps_previous_snapshot_witness :
  let r := calculatePoints (chain_down node_down) None
             (showing_snapshot, untouched) in
  pointsData (app_after r) = Some earlier_snapshot
  /\ showLevelUp (app_after r) = false
  /\ error (app_after r)
     = "Error fetching data. Please check the address and try again.".
Proof.
  pose proof (chain_failure_keeps_previous_snapshot (chain_down node_down)
                None showing_snapshot untouched node_down eq_refl
                (or_introl eq_refl)) as H.
  cbv zeta in H. destruct H as (Hp & _ & Hl & He & _).
  split; [exact Hp | split; [exact Hl | exact He]].
Defined.

(** The only upsert a submission sends carries the row computed from the
    two chain answers. *)
Lemma upsert_carries_the_row env arg st w row :
  Upsert row ∈ calls_during w (calculatePoints env arg (st, w)) ->
  exists cb b, blockNumber env = inr cb
               /\ balanceOf env CYGAAR_ADDRESS (submitted arg st) = inr b
               /\ row = row_written env (submitted arg st) cb b.
Proof.
  unfold calls_during.
  paths env arg st w; unfold world_after; step;
    rewrite ?drop_app_length, ?drop_all; intros Hin;
    try (apply elem_of_app in Hin as [Hin | Hin]);
    repeat (apply elem_of_cons in Hin as [Hin | Hin]; [try discriminate |]);
    try (apply elem_of_nil in Hin; contradiction);
    try (injection Hin as ->; eauto; fail).
  destruct (upsert_fails env); repeat
    (apply elem_of_cons in Hin as [Hin | Hin]; [discriminate |]);
    apply elem_of_nil in Hin; contradiction.
Qed.

(** X5: the order of the calls.  Whatever the outside answers, a submission
    sends at most the four requests [getBlockNumber], [balanceOf], upsert,
    refresh, in this order.  An upsert is only sent after both chain reads
    were answered and carries the row computed from them; a refresh is
    only sent after an upsert that succeeded. *)
Theorem calls_of_a_submission env arg st w :
  let r := calculatePoints env arg (st, w) in
  let a := submitted arg st in
  (exists row,
     calls_during w r
     `prefix_of` [GetBlockNumber;
                  ReadContract CYGAAR_ADDRESS "balanceOf" a;
                  Upsert row;
                  Select UNISWAP_POOL 10])
  /\ (forall row, Upsert row ∈ calls_during w r ->
        exists cb b, blockNumber env = inr cb
                     /\ balanceOf env CYGAAR_ADDRESS a = inr b
                     /\ row = row_written env a cb b)
  /\ (forall p n, Select p n ∈ calls_during w r -> upsert_fails env = None).
Proof.
  cbv zeta. unfold calls_during.
  paths env arg st w; unfold world_after; step;
    rewrite ?drop_app_length, ?drop_all.
  - split; [exists (row_written env (submitted arg st) 0 0);
            eexists; reflexivity |].
    split; [intros row Hin | intros p n Hin];
      repeat (apply elem_of_cons in Hin as [Hin | Hin]; [discriminate |]);
      apply elem_of_nil in Hin; contradiction.
  - split; [exists (row_written env (submitted arg st) 0 0);
            eexists; reflexivity |].
    split; [intros row Hin | intros p n Hin];
      repeat (apply elem_of_cons in Hin as [Hin | Hin]; [discriminate |]);
      apply elem_of_nil in Hin; contradiction.
  - destruct (upsert_fails env) as [ue|] eqn:Hup; rewrite ?app_nil_r.
    + split; [eexists; eexists; reflexivity |].
      split; [intros row Hin | intros p n Hin];
        repeat (apply elem_of_cons in Hin as [Hin | Hin];
                [try discriminate |]);
        try (apply elem_of_nil in Hin; contradiction).
      injection Hin as ->. eauto.
    + split; [eexists; exists []; reflexivity |].
      split; [intros row Hin | reflexivity].
      cbn [app] in Hin.
      repeat (apply elem_of_cons in Hin as [Hin | Hin];
              [try discriminate |]);
        try (apply elem_of_nil in Hin; contradiction).
      injection Hin as ->. eauto.
  - split; [exists (row_written env (submitted arg st) 0 0);
            eexists; reflexivity |].
    split; [intros row Hin | intros p n Hin];
      apply elem_of_nil in Hin; contradiction.
Qed.

Lemma calls_of_a_submission_witness :
  let env := chain_at 267810 (10 ^ 24) (Some store_down) None in
  let r := calculatePoints env (Some holder) (idle, untouched) in
  calls_during untouched r
  = [GetBlockNumber;
     ReadContract CYGAAR_ADDRESS "balanceOf" holder;
     Upsert (row_written env holder 267810 (10 ^ 24))]
  /\ (forall p n, Select p n ∉ calls_during untouched r).
Proof.
  pose proof (calls_of_a_submission
                (chain_at 267810 (10 ^ 24) (Some store_down) None)
                (Some holder) idle untouched) as H.
  cbv zeta in H |- *. destruct H as (_ & _ & Hsel).
  split; [vm_compute; reflexivity |].
  intros p n Hin. specialize (Hsel p n Hin). discriminate.
Defined.

(** X6: a submission touches one key of the table at most, the lowercase
    form of the submitted address: every other row is as before, and no
    key is ever removed. *)
Theorem other_rows_are_untouched env arg st w k :
  k <> toLowerCase (submitted arg st) ->
  let tbl' := points_leaderboard (world_after (calculatePoints env arg (st, w))) in
  tbl' !! k = points_leaderboard w !! k
  /\ dom (points_leaderboard w) ⊆ dom tbl'.
Proof.
  intros Hk. cbv zeta.
  paths env arg st w; unfold world_after; step; try (split; [reflexivity | set_solver]).
  destruct (upsert_fails env); [split; [reflexivity | set_solver] |].
  unfold upsert, row_written. cbn [LeaderboardEntry.address].
  split; [apply lookup_insert_ne; congruence |].
  rewrite dom_insert_L. set_solver.
Qed.

Lemma other_rows_are_untouched_witness :
  points_leaderboard
    (world_after (calculatePoints (chain_at 267810 (10 ^ 24) None None)
                    (Some holder) (idle, world_with_other_row)))
  !! LeaderboardEntry.address other_row = Some other_row.
Proof.
  pose proof (other_rows_are_untouched (chain_at 267810 (10 ^ 24) None None)
                (Some holder) idle world_with_other_row
                (LeaderboardEntry.address other_row)) as H.
  cbv zeta in H. destruct H as [H _].
  - vm_compute. discriminate.
  - rewrite H. vm_compute. reflexivity.
Defined.

(** ** The table and the leaderboard *)

Lemma toLowerCase_unit_idempotent c :
  toLowerCase_unit (toLowerCase_unit c) = toLowerCase_unit c.
Proof. destruct c as [[] [] [] [] [] [] [] []]; reflexivity. Qed.

Lemma toLowerCase_idempotent s : toLowerCase (toLowerCase s) = toLowerCase s.
Proof.
  induction s as [|c s IH]; [reflexivity |].
  change (toLowerCase (String c s))
    with (String (toLowerCase_unit c) (toLowerCase s)).
  change (toLowerCase (String (toLowerCase_unit c) (toLowerCase s)))
    with (String (toLowerCase_unit (toLowerCase_unit c))
            (toLowerCase (toLowerCase s))).
  rewrite toLowerCase_unit_idempotent, IH. reflexivity.
Qed.

(** No lowercase text is the constant [UNISWAP_POOL], which has capital
    letters. *)
Lemma lowercase_is_not_UNISWAP_POOL s : toLowerCase s = s -> s <> UNISWAP_POOL.
Proof. intros H ->. vm_compute in H. discriminate. Qed.

Lemma filter_all {A} (P : A -> Prop) `{forall x, Decision (P x)} (l : list A) :
  (forall x, x ∈ l -> P x) -> filter P l = l.
Proof.
  induction l as [|x l IH]; intros Hall; [reflexivity |].
  rewrite filter_cons_True by (apply Hall; left).
  f_equal. apply IH. intros y Hy. apply Hall. right. exact Hy.
Qed.

Lemma elem_of_rows tbl r :
  r ∈ rows tbl <-> exists k, tbl !! k = Some r.
Proof.
  unfold rows. rewrite list_elem_of_fmap. split.
  - intros [[k r'] [-> Hin]]. exists k. apply elem_of_map_to_list. exact Hin.
  - intros [k Hk]. exists (k, r). split; [reflexivity |].
    apply elem_of_map_to_list. exact Hk.
Qed.

(** X7: the two invariants of the table.  If every row sits under its own
    address and every stored address is in lowercase, the same holds after
    any submission, whatever the outside answers. *)
Theorem table_invariants_are_kept env arg st w :
  well_keyed (points_leaderboard w) ->
  lowercase_rows (points_leaderboard w) ->
  let tbl' := points_leaderboard (world_after (calculatePoints env arg (st, w))) in
  well_keyed tbl' /\ lowercase_rows tbl'.
Proof.
  intros Hk Hl. cbv zeta.
  paths env arg st w; unfold world_after; step; try (split; assumption).
  destruct (upsert_fails env); [split; assumption |].
  unfold upsert, row_written. cbn [LeaderboardEntry.address].
  split; apply map_Forall_insert_2; try assumption;
    cbn [LeaderboardEntry.address]; [reflexivity |].
  apply toLowerCase_idempotent.
Qed.

Lemma table_invariants_are_kept_witness :
  let tbl' := points_leaderboard
                (world_after (calculatePoints
                                (chain_at 267810 (10 ^ 24) None None)
                                (Some holder) (idle, world_with_other_row))) in
  well_keyed tbl' /\ lowercase_rows tbl'.
Proof.
  apply (table_invariants_are_kept (chain_at 267810 (10 ^ 24) None None)
           (Some holder) idle world_with_other_row).
  - unfold well_keyed. apply (bool_decide_unpack _). vm_compute. exact I.
  - unfold lowercase_rows. apply (bool_decide_unpack _). vm_compute. exact I.
Defined.

(** X8: on a table whose addresses are all in lowercase, as every address
    the component writes is, the [neq] filter of the leaderboard query
    removes nothing: the answer is the first rows of the whole table by
    points. *)
Theorem pool_filter_removes_no_lowercase_row tbl n :
  lowercase_rows tbl ->
  select_neq_order_limit tbl UNISWAP_POOL n
  = take n (merge_sort points_desc (rows tbl)).
Proof.
  intros Hl. unfold select_neq_order_limit. f_equal. f_equal.
  apply filter_all. intros r Hr. apply elem_of_rows in Hr as [k Hk].
  apply lowercase_is_not_UNISWAP_POOL. exact (Hl k r Hk).
Qed.

Lemma pool_filter_removes_no_lowercase_row_witness :
  select_neq_order_limit (points_leaderboard world_with_pool_row)
    UNISWAP_POOL 10
  = take 10 (merge_sort points_desc
               (rows (points_leaderboard world_with_pool_row))).
Proof.
  apply (pool_filter_removes_no_lowercase_row
           (points_leaderboard world_with_pool_row) 10).
  unfold lowercase_rows. apply (bool_decide_unpack _). vm_compute. exact I.
Defined.

(** X9: an answered refresh shows the top ten.  The list has at most ten
    rows, by points descending; each is a row of the table whose address is
    not spelled like [UNISWAP_POOL]; and every such row of the table that
    is not shown ranks no higher than any row shown, which then are ten. *)
Theorem leaderboard_is_the_top_ten env st w :
  select_fails env = None ->
  let shown := leaderboard (app_after (fetchLeaderboard env (st, w))) in
  let tbl := points_leaderboard w in
  (length shown <= 10)%nat
  /\ StronglySorted points_desc shown
  /\ (forall r, r ∈ shown ->
        LeaderboardEntry.address r <> UNISWAP_POOL
        /\ exists k, tbl !! k = Some r)
  /\ (forall k r, tbl !! k = Some r ->
        LeaderboardEntry.address r <> UNISWAP_POOL ->
        r ∈ shown
        \/ (length shown = 10%nat /\ forall s, s ∈ shown -> points_desc s r)).
Proof.
  intros Hsel. rewrite fetchLeaderboard_result, Hsel.
  unfold app_after. cbn [fst snd leaderboard]. cbv zeta.
  destruct (select_neq_order_limit_spec (points_leaderboard w)
              UNISWAP_POOL 10) as (Hlen & Hsort & Hin).
  split; [exact Hlen |]. split; [exact Hsort |]. split; [exact Hin |].
  intros k r Hk Hne. unfold select_neq_order_limit.
  set (l := merge_sort points_desc
              (filter (fun r => LeaderboardEntry.address r <> UNISWAP_POOL)
                 (rows (points_leaderboard w)))).
  assert (Hl : r ∈ l).
  { subst l. rewrite merge_sort_Permutation. apply list_elem_of_filter.
    split; [exact Hne |]. apply elem_of_rows. eauto. }
  assert (Hs : StronglySorted points_desc l)
    by (subst l; apply StronglySorted_merge_sort; apply _).
  rewrite <- (take_drop 10 l) in Hl, Hs.
  apply elem_of_app in Hl as [Hl | Hl]; [left; exact Hl | right].
  split.
  - rewrite length_take.
    destruct (decide (length l <= 10)%nat) as [Hle | Hgt]; [| lia].
    rewrite drop_ge in Hl by exact Hle. apply elem_of_nil in Hl. contradiction.
  - intros s Hin'. exact (StronglySorted_app_1_elem_of _ _ _ _ _ Hs Hin' Hl).
Qed.

Lemma leaderboard_is_the_top_ten_witness :
  leaderboard (app_after (fetchLeaderboard (chain_at 300000 0 None None)
                            (idle, world_with_other_row)))
  = [other_row].
Proof.
  pose proof (leaderboard_is_the_top_ten (chain_at 300000 0 None None)
                idle world_with_other_row eq_refl) as H.
  cbv zeta in H. destruct H as (_ & _ & _ & H).
  destruct (H (LeaderboardEntry.address other_row) other_row) as [Hin | [Hlen _]].
  - vm_compute. reflexivity.
  - vm_compute. discriminate.
  - vm_compute. reflexivity.
  - vm_compute in Hlen. discriminate.
Defined.

Lemma addresses_of_rows tbl :
  well_keyed tbl ->
  LeaderboardEntry.address <$> rows tbl = (map_to_list tbl).*1.
Proof.
  intros Hk. unfold rows.
  assert (Hall : forall p, p ∈ map_to_list tbl ->
                   LeaderboardEntry.address p.2 = p.1).
  { intros [k r] Hin. apply elem_of_map_to_list in Hin. exact (Hk k r Hin). }
  induction (map_to_list tbl) as [|p l IH]; [reflexivity |].
  cbn [fmap list_fmap]. f_equal.
  - apply Hall. left.
  - apply IH. intros q Hq. apply Hall. right. exact Hq.
Qed.

(** X10: the rows shown after an answered refresh have pairwise different
    addresses whenever every row of the table sits under its own address;
    the table body uses the address as the key of a row. *)
Theorem shown_addresses_are_distinct env st w :
  select_fails env = None ->
  well_keyed (points_leaderboard w) ->
  NoDup (LeaderboardEntry.address
         <$> leaderboard (app_after (fetchLeaderboard env (st, w)))).
Proof.
  intros Hsel Hk. rewrite fetchLeaderboard_result, Hsel.
  unfold app_after. cbn [fst snd leaderboard].
  unfold select_neq_order_limit.
  eapply sublist_NoDup; [| apply fmap_sublist, sublist_take].
  rewrite merge_sort_Permutation.
  eapply sublist_NoDup; [| apply fmap_sublist, sublist_filter].
  rewrite (addresses_of_rows _ Hk). apply NoDup_fst_map_to_list.
Qed.

Lemma shown_addresses_are_distinct_witness :
  NoDup (LeaderboardEntry.address
         <$> leaderboard (app_after (fetchLeaderboard
                                       (chain_at 300000 0 None None)
                                       (idle, world_with_other_row)))).
Proof.
  apply (shown_addresses_are_distinct (chain_at 300000 0 None None)
           idle world_with_other_row eq_refl).
  unfold well_keyed. apply (bool_decide_unpack _). vm_compute. exact I.
Defined.

(** X11: a refresh only reads.  It never throws, sends exactly the one
    query, leaves the table, the snapshot, the error message and the
    loading flag alone; when the store answers with an error the list
    shown stays and the error goes to the console only. *)
Theorem refresh_only_reads env st w :
  let r := fetchLeaderboard env (st, w) in
  r.1 = Normal tt
  /\ calls_during w r = [Select UNISWAP_POOL 10]
  /\ points_leaderboard (world_after r) = points_leaderboard w
  /\ pointsData (app_after r) = pointsData st
  /\ error (app_after r) = error st
  /\ loading (app_after r) = loading st
  /\ address (app_after r) = address st
  /\ (forall e, select_fails env = Some e ->
        leaderboard (app_after r) = leaderboard st
        /\ console_during w r = [ErrorFetchingLeaderboard e])
  /\ (select_fails env = None -> console_during w r = []).
Proof.
  cbv zeta. unfold calls_during, console_during.
  rewrite fetchLeaderboard_result. unfold app_after, world_after.
  cbn [fst snd calls console points_leaderboard]. rewrite !drop_app_length.
  destruct (select_fails env) as [e|];
    cbn [pointsData error loading address leaderboard];
    repeat split; try reflexivity; try discriminate; congruence.
Qed.

Lemma refresh_only_reads_witness :
  let r := fetchLeaderboard (chain_at 300000 0 None (Some store_down))
             (showing_snapshot, world_with_other_row) in
  leaderboard (app_after r) = []
  /\ console_during world_with_other_row r
     = [ErrorFetchingLeaderboard store_down].
Proof.
  pose proof (refresh_only_reads (chain_at 300000 0 None (Some store_down))
                showing_snapshot world_with_other_row) as H.
  cbv zeta in H |- *. destruct H as (_ & _ & _ & _ & _ & _ & _ & Hfail & _).
  exact (Hfail store_down eq_refl).
Defined.

(** X12: a submission that goes through shows its own row.  When both
    chain reads and both store calls succeed and the table held at most
    nine rows of other addresses, the leaderboard shown afterwards
    contains the row just written, with the points of the snapshot. *)
Theorem own_row_is_shown env arg st w cb b :
  eligible (submitted arg st) = true ->
  blockNumber env = inr cb ->
  balanceOf env CYGAAR_ADDRESS (submitted arg st) = inr b ->
  upsert_fails env = None ->
  select_fails env = None ->
  (size (delete (toLowerCase (submitted arg st)) (points_leaderboard w)) <= 9)%nat ->
  let r := calculatePoints env arg (st, w) in
  exists row,
    row ∈ leaderboard (app_after r)
    /\ LeaderboardEntry.address row = toLowerCase (submitted arg st)
    /\ Some (LeaderboardEntry.points row)
       = PointsData.points <$> pointsData (app_after r).
Proof.
  intros Hel Hcb Hb Hup Hsel Hsize r. subst r.
  rewrite (calculatePoints_scored _ _ _ _ _ _ Hel Hcb Hb), Hup, Hsel.
  unfold app_after. cbn [fst snd leaderboard pointsData].
  set (a := submitted arg st) in *.
  exists (row_written env a cb b).
  split; [| split; reflexivity].
  unfold select_neq_order_limit, upsert. cbn [row_written LeaderboardEntry.address].
  set (tbl' := <[toLowerCase a := row_written env a cb b]> (points_leaderboard w)).
  assert (Hlen : (length (rows tbl') <= 10)%nat).
  { unfold rows. rewrite length_fmap, length_map_to_list. subst tbl'.
    rewrite <- insert_delete_eq.
    rewrite map_size_insert_None by apply lookup_delete_eq. lia. }
  rewrite take_ge.
  - rewrite merge_sort_Permutation. apply list_elem_of_filter. split.
    + cbn [row_written LeaderboardEntry.address].
      apply lowercase_is_not_UNISWAP_POOL, toLowerCase_idempotent.
    + apply elem_of_rows. exists (toLowerCase a). subst tbl'.
      apply lookup_insert_eq.
  - rewrite (Permutation_length (merge_sort_Permutation _ _)).
    pose proof (length_filter
                  (fun r => LeaderboardEntry.address r <> UNISWAP_POOL)
                  (rows tbl')). lia.
Qed.

Lemma own_row_is_shown_witness :
  let r := calculatePoints (chain_at 267810 (10 ^ 24) None None)
             (Some holder) (idle, world_with_other_row) in
  exists row,
    row ∈ leaderboard (app_after r)
    /\ LeaderboardEntry.address row = holder_lowercase.
Proof.
  pose proof (own_row_is_shown (chain_at 267810 (10 ^ 24) None None)
                (Some holder) idle world_with_other_row 267810 (10 ^ 24)
                eq_refl eq_refl eq_refl eq_refl eq_refl) as H.
  destruct H as (row & Hin & Ha & _).
  - vm_compute. lia.
  - exists row. split; [exact Hin | exact Ha].
Defined.

(** ** The routes to a submission *)

(** A submission looks at the submitted address and at what is on display,
    not at the input field. *)
Lemma calculatePoints_same_submission env arg1 arg2 st1 st2 w :
  submitted arg1 st1 = submitted arg2 st2 ->
  same_display st1 st2 ->
  let r1 := calculatePoints env arg1 (st1, w) in
  let r2 := calculatePoints env arg2 (st2, w) in
  same_display (app_after r1) (app_after r2)
  /\ world_after r1 = world_after r2
  /\ address (app_after r1) = address st1.
Proof.
  intros Hsub (Hp & Hl & He & Hb & Hs1 & Hs2). cbv zeta.
  destruct (eligible (submitted arg1 st1)) eqn:Hel1.
  - assert (Hel2 : eligible (submitted arg2 st2) = true)
      by (rewrite <- Hsub; exact Hel1).
    destruct (blockNumber env) as [e | cb] eqn:Hcb.
    + rewrite (calculatePoints_block_fails env arg1 st1 w e Hel1 Hcb).
      rewrite (calculatePoints_block_fails env arg2 st2 w e Hel2 Hcb).
      unfold same_display, app_after, world_after. step.
      repeat split; assumption || reflexivity.
    + destruct (balanceOf env CYGAAR_ADDRESS (submitted arg1 st1))
        as [e | b] eqn:Hb1.
      * assert (Hb2 : balanceOf env CYGAAR_ADDRESS (submitted arg2 st2) = inl e)
          by (rewrite <- Hsub; exact Hb1).
        rewrite (calculatePoints_balance_fails env arg1 st1 w cb e Hel1 Hcb Hb1).
        rewrite (calculatePoints_balance_fails env arg2 st2 w cb e Hel2 Hcb Hb2).
        unfold same_display, app_after, world_after. step. rewrite Hsub.
        repeat split; assumption || reflexivity.
      * assert (Hb2 : balanceOf env CYGAAR_ADDRESS (submitted arg2 st2) = inr b)
          by (rewrite <- Hsub; exact Hb1).
        rewrite (calculatePoints_scored env arg1 st1 w cb b Hel1 Hcb Hb1).
        rewrite (calculatePoints_scored env arg2 st2 w cb b Hel2 Hcb Hb2).
        unfold same_display, app_after, world_after. step. rewrite Hsub, Hb.
        repeat split; reflexivity.
  - assert (Hel2 : eligible (submitted arg2 st2) = false)
      by (rewrite <- Hsub; exact Hel1).
    rewrite (calculatePoints_rejected env arg1 st1 w Hel1).
    rewrite (calculatePoints_rejected env arg2 st2 w Hel2).
    unfold same_display, app_after, world_after. step. rewrite Hsub.
    repeat split; assumption || reflexivity.
Qed.

(** X13: the routes to a submission.  Typing an address and pressing
    Enter, and connecting a wallet with that address, end with the same
    display and the same world as [calculatePoints] called on it, and with
    the address in the input field; a submission itself never rewrites the
    field.  Pressing the button does the same as Enter while [loading] is
    off; while it is set the button is disabled and a click adds nothing
    to the typing, where Enter still submits. *)
Theorem every_route_submits_the_address env v st w :
  let direct := calculatePoints env (Some v) (st, w) in
  let clicked := (onChange v;; onClick env) (st, w) in
  let entered := (onChange v;; handleKeyPress env "Enter") (st, w) in
  let connected := onConnectedAddress env (Some v) (st, w) in
  address (app_after direct) = address st
  /\ (same_display (app_after entered) (app_after direct)
      /\ world_after entered = world_after direct
      /\ address (app_after entered) = v)
  /\ (loading st = false -> clicked = entered)
  /\ (loading st = true -> clicked = onChange v (st, w))
  /\ (v <> "" ->
      same_display (app_after connected) (app_after direct)
      /\ world_after connected = world_after direct
      /\ address (app_after connected) = v).
Proof.
  cbv zeta.
  set (st' := {| address := v; pointsData := pointsData st;
                 loading := loading st; error := error st;
                 leaderboard := leaderboard st;
                 showPointsAnimation := showPointsAnimation st;
                 showLevelUp := showLevelUp st |}).
  assert (Hdisp : same_display st' st) by (repeat split; reflexivity).
  assert (Henter : (onChange v;; handleKeyPress env "Enter") (st, w)
                   = calculatePoints env None (st', w)) by reflexivity.
  assert (Hclick : (onChange v;; onClick env) (st, w)
                   = (if loading st then mret tt
                      else calculatePoints env None) (st', w)) by reflexivity.
  assert (Hwallet : v <> "" ->
                    onConnectedAddress env (Some v) (st, w)
                    = calculatePoints env (Some v) (st', w)).
  { intros Hv. unfold onConnectedAddress.
    apply String.eqb_neq in Hv. rewrite Hv. reflexivity. }
  split.
  { exact (proj2 (proj2 (calculatePoints_same_submission env (Some v) (Some v)
                           st st w eq_refl
                           ltac:(repeat split; reflexivity)))). }
  split.
  { rewrite Henter.
    exact (calculatePoints_same_submission env None (Some v) st' st w
             eq_refl Hdisp). }
  split.
  { intros Hl. rewrite Hclick, Henter, Hl. reflexivity. }
  split.
  { intros Hl. rewrite Hclick, Hl. reflexivity. }
  intros Hv. rewrite (Hwallet Hv).
  exact (calculatePoints_same_submission env (Some v) (Some v) st' st w
           eq_refl Hdisp).
Qed.

Lemma every_route_submits_the_address_witness :
  let env := chain_at 267810 (10 ^ 24) None None in
  (pointsData (app_after (onConnectedAddress env (Some holder) (idle, untouched)))
   = pointsData (app_after (calculatePoints env (Some holder) (idle, untouched)))
   /\ address (app_after (onConnectedAddress env (Some holder) (idle, untouched)))
      = holder)
  /\ (onChange holder;; onClick env) (idle, untouched)
     = (onChange holder;; handleKeyPress env "Enter") (idle, untouched)
  /\ calls_during untouched
       ((onChange holder;; onClick env) (waiting, untouched)) = []
  /\ calls_during untouched
       ((onChange holder;; handleKeyPress env "Enter") (waiting, untouched))
     <> [].
Proof.
  pose proof (every_route_submits_the_address
                (chain_at 267810 (10 ^ 24) None None) holder idle untouched)
    as H.
  pose proof (every_route_submits_the_address
                (chain_at 267810 (10 ^ 24) None None) holder waiting untouched)
    as Hw.
  cbv zeta in H, Hw |- *.
  destruct H as (_ & _ & Hoff & _ & H).
  destruct Hw as (_ & _ & _ & Hon & _).
  split; [| split; [exact (Hoff eq_refl) | split]].
  - destruct H as ((Hp & _) & _ & Ha).
    + vm_compute. discriminate.
    + split; [exact Hp | exact Ha].
  - rewrite (Hon eq_refl). reflexivity.
  - vm_compute. discriminate.
Defined.

(** ** Short addresses *)

Lemma string_app_assoc (a b c : string) : (a +:+ b) +:+ c = a +:+ (b +:+ c).
Proof.
  induction a as [|x a IH]; [reflexivity |].
  change (String x ((a +:+ b) +:+ c) = String x (a +:+ (b +:+ c))).
  rewrite IH. reflexivity.
Qed.

Lemma string_length_app (a b : string) :
  String.length (a +:+ b) = (String.length a + String.length b)%nat.
Proof.
  induction a as [|x a IH]; [reflexivity |].
  change (S (String.length (a +:+ b))
          = S (String.length a + String.length b)).
  rewrite IH. reflexivity.
Qed.

Lemma substring_prefix (a b : string) :
  substring 0 (String.length a) (a +:+ b) = a.
Proof.
  induction a as [|x a IH].
  - destruct b; reflexivity.
  - change (String x (substring 0 (String.length a) (a +:+ b)) = String x a).
    rewrite IH. reflexivity.
Qed.

Lemma substring_all (s : string) : substring 0 (String.length s) s = s.
Proof.
  induction s as [|c s IH]; [reflexivity |].
  change (String c (substring 0 (String.length s) s) = String c s).
  rewrite IH. reflexivity.
Qed.

Lemma substring_suffix (a b : string) :
  substring (String.length a) (String.length b) (a +:+ b) = b.
Proof.
  induction a as [|x a IH]; [apply substring_all | exact IH].
Qed.

(** X14: an address of ten characters or more is shown as its first six
    characters, three dots and its last four: thirteen characters, which
    do not depend on what lies between. *)
Theorem shortenAddress_keeps_six_and_four (p mid q : string) :
  String.length p = 6%nat -> String.length q = 4%nat ->
  shortenAddress (p +:+ mid +:+ q) = p +:+ "..." +:+ q
  /\ String.length (shortenAddress (p +:+ mid +:+ q)) = 13%nat.
Proof.
  intros Hp Hq.
  assert (Heq : shortenAddress (p +:+ mid +:+ q) = p +:+ "..." +:+ q).
  { unfold shortenAddress, slice. rewrite !string_length_app, Hp, Hq.
    set (n := String.length mid).
    replace (0 <? 0) with false by reflexivity.
    replace (6 <? 0) with false by reflexivity.
    replace (-4 <? 0) with true by reflexivity.
    f_equal; [| f_equal].
    - replace (Z.to_nat (Z.min 0 (Z.of_nat (6 + (n + 4))))) with 0%nat by lia.
      replace (Z.to_nat (Z.max (Z.min 6 (Z.of_nat (6 + (n + 4)))
                                - Z.min 0 (Z.of_nat (6 + (n + 4)))) 0))
        with (String.length p) by lia.
      apply substring_prefix.
    - replace (Z.to_nat (Z.max (Z.of_nat (6 + (n + 4)) + -4) 0))
        with (String.length (p +:+ mid))
        by (rewrite string_length_app, Hp; lia).
      replace (Z.to_nat (Z.max (Z.of_nat (6 + (n + 4))
                                - Z.max (Z.of_nat (6 + (n + 4)) + -4) 0) 0))
        with (String.length q) by lia.
      rewrite <- string_app_assoc. apply substring_suffix. }
  split; [exact Heq |].
  rewrite Heq, !string_length_app, Hp, Hq. reflexivity.
Qed.

Lemma shortenAddress_keeps_six_and_four_witness :
  shortenAddress holder = "0x71C7...976F".
Proof.
  exact (proj1 (shortenAddress_keeps_six_and_four
                  "0x71C7" "656EC7ab88b098defB751B7401B5f6d8" "976F"
                  eq_refl eq_refl)).
Defined.

(** X15: a text of at most four characters is not shortened: it comes back
    twice, around the three dots. *)
Theorem shortenAddress_repeats_short_text (s : string) :
  (String.length s <= 4)%nat ->
  shortenAddress s = s +:+ "..." +:+ s.
Proof.
  intros Hlen. unfold shortenAddress, slice.
  replace (0 <? 0) with false by reflexivity.
  replace (6 <? 0) with false by reflexivity.
  replace (-4 <? 0) with true by reflexivity.
  set (n := String.length s) in *.
  replace (Z.to_nat (Z.min 0 (Z.of_nat n))) with 0%nat by lia.
  replace (Z.to_nat (Z.max (Z.min 6 (Z.of_nat n) - Z.min 0 (Z.of_nat n)) 0))
    with n by lia.
  replace (Z.to_nat (Z.max (Z.of_nat n + -4) 0)) with 0%nat by lia.
  replace (Z.to_nat (Z.max (Z.of_nat n - Z.max (Z.of_nat n + -4) 0) 0))
    with n by lia.
  subst n. rewrite substring_all. reflexivity.
Qed.

Lemma shortenAddress_repeats_short_text_witness :
  shortenAddress "0x" = "0x...0x".
Proof.
  apply (shortenAddress_repeats_short_text "0x"). cbn. lia.
Defined.

(** ** Levels *)

Lemma below_numeric_rank x n :
  valid x = true -> below x (2 ^ 53) ->
  below x n <-> numeric_rank x < n * 2 ^ 1074.
Proof.
  intros Hv Hb. destruct x as [s | s | | s m e]; cbn [below] in Hb |- *;
    try contradiction.
  - cbn [numeric_rank]. lia.
  - destruct s; [contradiction |].
    destruct (bounded_below_exponent m e Hv Hb) as (He & _ & _).
    cbn [numeric_rank cond_Zopp]. rewrite Z.shiftl_mul_pow2 by lia.
    assert (Hp : 0 < 2 ^ (e + 1074)) by (apply Z.pow_pos_nonneg; lia).
    destruct (0 <=? e) eqn:E0.
    + apply Z.leb_le in E0. assert (e = 0) as -> by lia.
      rewrite Z.pow_0_r, Z.mul_1_r. change (0 + 1074) with 1074. lia.
    + assert (Hsplit : 2 ^ 1074 = 2 ^ (- e) * 2 ^ (e + 1074))
        by (rewrite <- Z.pow_add_r by lia; f_equal; lia).
      rewrite Hsplit, Z.mul_assoc. split; intros H.
      * apply Z.mul_lt_mono_pos_r; assumption.
      * apply Z.mul_lt_mono_pos_r in H; assumption.
Qed.

(** The exact quotient by 650 against an integer bound. *)
Lemma floor_quotient_below points k n :
  valid points = true -> below points (2 ^ 53) ->
  floor_quotient points 650 = Some k ->
  0 <= k /\ (k < n <-> below points (650 * n)).
Proof.
  intros Hv Hb Hq.
  destruct points as [s | s | | s m e]; cbn [below] in Hb; try contradiction.
  - injection Hq as <-. split; [lia |]. cbn [below]. lia.
  - destruct s; [contradiction |].
    destruct (floor_div_POINTS_PER_LEVEL m e Hv Hb) as (Hq' & Hk0 & _ & _).
    rewrite Hq in Hq'. injection Hq' as ->.
    destruct (bounded_below_exponent m e Hv Hb) as (He & _ & _).
    split; [lia |].
    set (N := 2 ^ (- e)).
    assert (HN : 0 < N) by (subst N; apply Z.pow_pos_nonneg; lia).
    pose proof (Z.div_mod (Zpos m) (650 * N) ltac:(lia)) as Hdm.
    pose proof (Z.mod_pos_bound (Zpos m) (650 * N) ltac:(lia)) as Hr.
    set (k := Zpos m / (650 * N)) in *.
    assert (Hbelow : below (S754_finite false m e) (650 * n)
                     <-> Zpos m < 650 * N * n).
    { cbn [below]. destruct (0 <=? e) eqn:E0.
      - apply Z.leb_le in E0. assert (e = 0) as -> by lia.
        subst N. change (2 ^ (- 0)) with 1. rewrite Z.pow_0_r. lia.
      - fold N. lia. }
    rewrite Hbelow. split; intros H.
    + assert (650 * N * (k + 1) <= 650 * N * n)
        by (apply Z.mul_le_mono_nonneg_l; lia).
      lia.
    + destruct (Z_lt_ge_dec k n) as [|Hge]; [assumption | exfalso].
      assert (650 * N * n <= 650 * N * k)
        by (apply Z.mul_le_mono_nonneg_l; lia).
      lia.
Qed.

(** X16: the level steps.  For a well-formed score [0 <= points < 2^53]
    the level is an integer [l >= 1], and [l <= n] holds exactly when
    [points < 650 * n] in exact arithmetic: level [n] begins at
    [650 * (n - 1)] points, with no rounding error at any step. *)
Theorem level_steps_at_multiples_of_650 points :
  valid points = true -> below points (2 ^ 53) ->
  exists l, to_integer (calculateLevel points) = Some l
            /\ 1 <= l
            /\ forall n, l <= n <-> below points (650 * n).
Proof.
  intros Hv Hb.
  destruct (calculateLevel_integral points Hv Hb) as (k & Hq & Hint).
  exists (k + 1). split; [exact (to_integer_integral _ _ _ Hint) |].
  split.
  - destruct (floor_quotient_below points k 0 Hv Hb Hq) as [Hk _]. lia.
  - intros n.
    destruct (floor_quotient_below points k n Hv Hb Hq) as [_ Hn].
    rewrite <- Hn. lia.
Qed.

Lemma level_steps_at_multiples_of_650_witness :
  exists l, to_integer (calculateLevel (Number_of_ratio 1299999 1000)) = Some l
            /\ l = 2.
Proof.
  destruct (level_steps_at_multiples_of_650 (Number_of_ratio 1299999 1000))
    as (l & Hl & _ & Hn).
  - vm_compute. reflexivity.
  - vm_compute. reflexivity.
  - exists l. split; [exact Hl |].
    vm_compute in Hl. injection Hl as <-. reflexivity.
Defined.

(** X17: the level follows the order of the leaderboard.  Of two
    well-formed scores below [2^53], the one that ranks at least as high
    in the [points] order has at least the level of the other. *)
Theorem level_is_monotone p q :
  valid p = true -> valid q = true ->
  below p (2 ^ 53) -> below q (2 ^ 53) ->
  numeric_rank p <= numeric_rank q ->
  exists lp lq,
    to_integer (calculateLevel p) = Some lp
    /\ to_integer (calculateLevel q) = Some lq
    /\ lp <= lq.
Proof.
  intros Hvp Hvq Hbp Hbq Hle.
  destruct (calculateLevel_integral p Hvp Hbp) as (kp & Hqp & Hip).
  destruct (calculateLevel_integral q Hvq Hbq) as (kq & Hqq & Hiq).
  exists (kp + 1), (kq + 1).
  split; [exact (to_integer_integral _ _ _ Hip) |].
  split; [exact (to_integer_integral _ _ _ Hiq) |].
  destruct (floor_quotient_below p kp (kq + 1) Hvp Hbp Hqp) as [_ Hp].
  destruct (floor_quotient_below q kq (kq + 1) Hvq Hbq Hqq) as [_ Hq].
  assert (Hq' : below q (650 * (kq + 1))) by (apply Hq; lia).
  apply (below_numeric_rank q _ Hvq Hbq) in Hq'.
  assert (Hp' : below p (650 * (kq + 1)))
    by (apply (below_numeric_rank p _ Hvp Hbp); lia).
  apply Hp in Hp'. lia.
Qed.

Lemma level_is_monotone_witness :
  exists lp lq,
    to_integer (calculateLevel (Number_of_bigint 649)) = Some lp
    /\ to_integer (calculateLevel (Number_of_ratio 1299999 1000)) = Some lq
    /\ lp <= lq.
Proof.
  apply (level_is_monotone (Number_of_bigint 649)
           (Number_of_ratio 1299999 1000)).
  - vm_compute. reflexivity.
  - vm_compute. reflexivity.
  - vm_compute. reflexivity.
  - vm_compute. reflexivity.
  - vm_compute. discriminate.
Defined.

(** ** Scores stay finite *)

Lemma Zdigits2_pos_le m D : Zpos m < 2 ^ D -> 0 <= D -> Zdigits2 (Zpos m) <= D.
Proof. intros H HD. apply Zdigits2_le; lia. Qed.

(** Rounding a value below [2^B] gives a zero or a finite number below
    [2^(B+1)], of the sign asked for. *)
Lemma binary_round_aux_magnitude sx U V ex B :
  0 < V -> 0 <= U -> Zdigits2 (U / V) + ex <= B -> B <= 970 ->
  let r := binary_round_aux prec emax sx (U / V) ex (loc_of (U mod V) V) in
  magnitude_below r (Z.max (B + 1) (-1020)) /\ signbit r = sx.
Proof.
  intros HV HU HB Hmax r. subst r.
  destruct (binary_round_aux_spec sx U V (U / V) (loc_of (U mod V) V) ex
              HV HU eq_refl eq_refl)
    as (m2 & [[Hlo Hhi] _] & [[_ ->] | (m3 & e3 & He3 & Hm3 & Hm53 & Hcase & ->)]).
  { split; [exact I | reflexivity]. }
  set (mx := U / V) in *. set (d := Zdigits2 mx) in *.
  set (e1 := Z.max ex (fexp prec emax (d + ex))) in *.
  assert (Hd0 : 0 <= d) by apply Zdigits2_nonneg.
  assert (Hmx0 : 0 <= mx) by (apply Z.div_pos; lia).
  assert (Hfexp : fexp prec emax (d + ex) = Z.max (d + ex - 53) (-1074))
    by apply fexp_eq.
  assert (Hd3 : Zdigits2 (Zpos m3) <= 53) by (apply Zdigits2_pos_le; lia).
  assert (Hsum : Zdigits2 (Zpos m3) + e3 <= Z.max (B + 1) (-1020)).
  { destruct (Z_le_gt_dec (fexp prec emax (d + ex)) ex) as [Hno | Hshift].
    - (* the mantissa is kept: the result is at most [mx + 1] *)
      assert (He1 : e1 = ex) by lia.
      rewrite He1, Z.sub_diag, Z.pow_0_r, Z.mul_1_l in Hlo.
      assert (Hmx1 : U < (mx + 1) * V).
      { pose proof (Z.div_mod U V ltac:(lia)) as Hdm.
        pose proof (Z.mod_pos_bound U V HV) as Hr. fold mx in Hdm. lia. }
      assert (Hm2 : m2 <= mx + 1).
      { destruct (Z_le_gt_dec m2 (mx + 1)) as [|Hgt]; [assumption | exfalso].
        assert ((2 * (mx + 1) + 1) * V <= (2 * m2 - 1) * V)
          by (apply Z.mul_le_mono_nonneg_r; lia).
        lia. }
      assert (Hmxd : mx + 1 <= 2 ^ d).
      { destruct (Z.eq_dec mx 0) as [E0 | Hne].
        - rewrite E0. pose proof (Z.pow_pos_nonneg 2 d). lia.
        - pose proof (Zdigits2_bounds mx ltac:(lia)). fold d in H. lia. }
      rewrite He1 in He3, Hm3.
      assert (Hpow : 0 < 2 ^ (e3 - ex)) by (apply Z.pow_pos_nonneg; lia).
      assert (Hm3' : Zpos m3 * 2 ^ (e3 - ex) < 2 ^ (d + 1)).
      { rewrite Z.pow_add_r, Z.pow_1_r by lia. lia. }
      assert (Hd3' : Zdigits2 (Zpos m3) + (e3 - ex) <= d + 1).
      { rewrite <- Zdigits2_mul_pow2 by lia. apply Zdigits2_le; lia. }
      lia.
    - assert (He1 : e1 = Z.max (d + ex - 53) (-1074)) by lia.
      lia. }
  assert (Hfin : (e3 <=? emax - prec) = true).
  { apply Z.leb_le. unfold emax, prec.
    assert (e1 <= Z.max B (-1074)) by (subst e1; lia).
    lia. }
  rewrite Hfin. split; [exact Hsum | reflexivity].
Qed.

Lemma magnitude_below_mono x B B' :
  magnitude_below x B -> B <= B' -> magnitude_below x B'.
Proof. destruct x; cbn [magnitude_below]; try tauto. lia. Qed.

Lemma magnitude_below_is_finite x B : magnitude_below x B -> is_finite x = true.
Proof. destruct x; cbn [magnitude_below]; try tauto; reflexivity. Qed.

Lemma mul_magnitude x y Bx By :
  magnitude_below x Bx -> magnitude_below y By -> Bx + By <= 970 ->
  magnitude_below (mul x y) (Z.max (Bx + By + 1) (-1020))
  /\ signbit (mul x y) = xorb (signbit x) (signbit y).
Proof.
  intros Hx Hy Hsum.
  destruct x as [sx | sx | | sx mx ex], y as [sy | sy | | sy my ey];
    cbn [magnitude_below] in Hx, Hy; try contradiction;
    try (split; [exact I | reflexivity]).
  unfold mul, SFmul. cbn [signbit].
  pose proof (binary_round_aux_magnitude (xorb sx sy) (Zpos (mx * my)) 1
                (ex + ey) (Bx + By) ltac:(lia) ltac:(lia)) as H.
  rewrite Z.div_1_r, Z.mod_1_r in H. apply H; [| exact Hsum].
  destruct (Zdigits2_bounds (Zpos mx) ltac:(lia)) as [_ Hx2].
  destruct (Zdigits2_bounds (Zpos my) ltac:(lia)) as [_ Hy2].
  pose proof (Zdigits2_nonneg (Zpos mx)). pose proof (Zdigits2_nonneg (Zpos my)).
  assert (Zdigits2 (Zpos (mx * my))
          <= Zdigits2 (Zpos mx) + Zdigits2 (Zpos my)).
  { apply Zdigits2_le; [lia | lia |].
    rewrite Z.pow_add_r by lia. rewrite Pos2Z.inj_mul.
    apply Z.mul_lt_mono_nonneg; lia. }
  lia.
Qed.

Lemma Number_of_ratio_magnitude n d B :
  0 <= n < 2 ^ B -> 0 <= B <= 970 ->
  magnitude_below (Number_of_ratio n d) (B + 1)
  /\ signbit (Number_of_ratio n d) = false.
Proof.
  intros Hn HB. unfold Number_of_ratio.
  destruct n as [|p|p]; [split; [exact I | reflexivity] | | lia].
  change (Z.abs (Zpos p)) with (Zpos p).
  rewrite SFdiv_core_binary_spec. cbv zeta.
  change (Zpos p <? 0) with false.
  set (e' := Z.min (fexp prec emax (Zdigits2 (Zpos p) + 0
                                    - (Zdigits2 (Zpos d) + 0))) (0 - 0)).
  assert (He' : e' <= 0) by (subst e'; lia).
  replace (0 - 0 - e') with (- e') by lia.
  assert (Hp : 0 < 2 ^ (- e')) by (apply Z.pow_pos_nonneg; lia).
  set (U := Zpos p * 2 ^ (- e')).
  assert (HU : 0 <= U) by (subst U; nia).
  pose proof (binary_round_aux_magnitude false U (Zpos d) e' B
                ltac:(lia) HU) as H.
  replace (Z.max (B + 1) (-1020)) with (B + 1) in H by lia.
  apply H; [| lia].
  assert (Hq : U / Zpos d <= U) by (apply Z.div_le_upper_bound; nia).
  assert (Hq0 : 0 <= U / Zpos d) by (apply Z.div_pos; lia).
  assert (HUB : U < 2 ^ (B + - e')).
  { subst U. rewrite Z.pow_add_r by lia.
    apply Z.mul_lt_mono_pos_r; lia. }
  assert (Zdigits2 (U / Zpos d) <= B + - e') by (apply Zdigits2_le; lia).
  lia.
Qed.

Lemma Number_of_bigint_magnitude z B :
  0 <= z < 2 ^ B -> 0 <= B <= 970 ->
  magnitude_below (Number_of_bigint z) (B + 1)
  /\ signbit (Number_of_bigint z) = false.
Proof.
  intros Hz HB. unfold Number_of_bigint, binary_normalize.
  destruct z as [|p|p]; [split; [exact I | reflexivity] | | lia].
  unfold binary_round.
  pose proof (shl_align_spec p 0 (fexp prec emax (Zpos (digits2_pos p) + 0)))
    as Hal.
  destruct (shl_align p 0 _) as [mz ez]. destruct Hal as [Hez Hmz].
  assert (Hez0 : ez <= 0) by lia.
  pose proof (binary_round_aux_magnitude false (Zpos mz) 1 ez B
                ltac:(lia) ltac:(lia)) as H.
  rewrite Z.div_1_r, Z.mod_1_r in H.
  replace (Z.max (B + 1) (-1020)) with (B + 1) in H by lia.
  apply H; [| lia].
  rewrite Hmz, Zdigits2_mul_pow2 by lia.
  assert (Zdigits2 (Zpos p) <= B) by (apply Zdigits2_le; lia).
  lia.
Qed.

Lemma snapshot_points_magnitude cb b :
  0 <= b < 2 ^ 256 -> START_BLOCK <= cb < 2 ^ 64 ->
  let tokens := mul (Number_of_string (formatEther b)) POINTS_PER_TOKEN in
  (magnitude_below tokens 225 /\ signbit tokens = false)
  /\ (magnitude_below (Number_of_bigint (cb - START_BLOCK)) 65
      /\ signbit (Number_of_bigint (cb - START_BLOCK)) = false)
  /\ magnitude_below (PointsData.points (snapshot cb b)) 291
  /\ signbit (PointsData.points (snapshot cb b)) = false.
Proof.
  intros Hb Hcb tokens.
  assert (Htb : magnitude_below (Number_of_string (formatEther b)) 257
                /\ signbit (Number_of_string (formatEther b)) = false).
  { unfold Number_of_string, formatEther. cbn [numerator decimals].
    apply (Number_of_ratio_magnitude b _ 256); lia. }
  assert (Hppt : magnitude_below POINTS_PER_TOKEN (-33))
    by (rewrite POINTS_PER_TOKEN_eq; cbn; lia).
  assert (Ht : magnitude_below tokens 225 /\ signbit tokens = false).
  { destruct Htb as [Hm Hs].
    destruct (mul_magnitude _ _ 257 (-33) Hm Hppt ltac:(lia)) as [Hm' Hs'].
    split; [exact Hm' |]. subst tokens. rewrite Hs', Hs. reflexivity. }
  assert (Hbh : magnitude_below (Number_of_bigint (cb - START_BLOCK)) 65
                /\ signbit (Number_of_bigint (cb - START_BLOCK)) = false).
  { apply (Number_of_bigint_magnitude _ 64); [| lia].
    unfold START_BLOCK in *.
    assert (0 <= 2 ^ 64) by (apply Z.pow_nonneg; lia). lia. }
  split; [exact Ht |]. split; [exact Hbh |].
  destruct Ht as [Hm Hs], Hbh as [Hmb Hsb].
  destruct (mul_magnitude _ _ 225 65 Hm Hmb ltac:(lia)) as [Hm' Hs'].
  unfold snapshot. cbn [PointsData.points]. fold tokens.
  split; [exact Hm' |]. rewrite Hs', Hs, Hsb. reflexivity.
Qed.

(** X18: for every balance a [uint256] can hold and every block height
    from [START_BLOCK] up to [2^64], the points shown and the points sent
    to the store are a finite number that is not negative: no NaN, no
    infinity and no minus sign reaches the leaderboard. *)
Theorem scores_are_finite_and_not_negative env arg st w cb b :
  eligible (submitted arg st) = true ->
  blockNumber env = inr cb ->
  balanceOf env CYGAAR_ADDRESS (submitted arg st) = inr b ->
  0 <= b < 2 ^ 256 ->
  START_BLOCK <= cb < 2 ^ 64 ->
  let r := calculatePoints env arg (st, w) in
  (exists pd,
     pointsData (app_after r) = Some pd
     /\ is_finite (PointsData.points pd) = true
     /\ signbit (PointsData.points pd) = false
     /\ is_finite (PointsData.blocksHeld pd) = true
     /\ signbit (PointsData.blocksHeld pd) = false)
  /\ (forall row, Upsert row ∈ calls_during w r ->
        is_finite (LeaderboardEntry.points row) = true
        /\ signbit (LeaderboardEntry.points row) = false).
Proof.
  intros Hel Hcb Hb Hb256 Hcb64 r.
  destruct (snapshot_points_magnitude cb b Hb256 Hcb64)
    as (_ & [Hmb Hsb] & Hm & Hs).
  split.
  - subst r. rewrite (calculatePoints_scored _ _ _ _ _ _ Hel Hcb Hb).
    exists (snapshot cb b). split; [reflexivity |].
    split; [exact (magnitude_below_is_finite _ _ Hm) |].
    split; [exact Hs |].
    split; [exact (magnitude_below_is_finite _ _ Hmb) | exact Hsb].
  - intros row Hin.
    destruct (upsert_carries_the_row env arg st w row Hin)
      as (cb' & b' & Hcb' & Hb' & ->).
    rewrite Hcb in Hcb'. rewrite Hb in Hb'.
    injection Hcb' as <-. injection Hb' as <-.
    cbn [row_written LeaderboardEntry.points].
    split; [exact (magnitude_below_is_finite _ _ Hm) | exact Hs].
Qed.

Lemma scores_are_finite_and_not_negative_witness :
  let r := calculatePoints (chain_at (2 ^ 64 - 1) (2 ^ 256 - 1) None None)
             (Some holder) (idle, untouched) in
  exists pd,
    pointsData (app_after r) = Some pd
    /\ is_finite (PointsData.points pd) = true
    /\ signbit (PointsData.points pd) = false.
Proof.
  pose proof (scores_are_finite_and_not_negative
                (chain_at (2 ^ 64 - 1) (2 ^ 256 - 1) None None)
                (Some holder) idle untouched (2 ^ 64 - 1) (2 ^ 256 - 1)
                eq_refl eq_refl eq_refl) as H.
  destruct H as [(pd & Hpd & Hf & Hs & _) _].
  - vm_compute. split; [discriminate | reflexivity].
  - vm_compute. split; [discriminate | reflexivity].
  - exists pd. split; [exact Hpd | split; [exact Hf | exact Hs]].
Defined.

(** X19: nothing held, nothing scored.  With a balance of zero, or at
    block [START_BLOCK] itself, the points are [+0] and the level is [1],
    for every [uint256] balance and every height from [START_BLOCK] up to
    [2^64]. *)
Theorem nothing_held_scores_nothing cb b :
  0 <= b < 2 ^ 256 ->
  START_BLOCK <= cb < 2 ^ 64 ->
  b = 0 \/ cb = START_BLOCK ->
  PointsData.points (snapshot cb b) = S754_zero false
  /\ PointsData.level (snapshot cb b) = Number_of_bigint 1.
Proof.
  intros Hb Hcb Hzero.
  destruct (snapshot_points_magnitude cb b Hb Hcb)
    as ([Hmt Hst] & [Hmb Hsb] & _).
  assert (Hp : PointsData.points (snapshot cb b) = S754_zero false).
  { unfold snapshot. cbn [PointsData.points].
    destruct Hzero as [-> | ->].
    - change (mul (Number_of_string (formatEther 0)) POINTS_PER_TOKEN)
        with (S754_zero false).
      destruct (Number_of_bigint (cb - START_BLOCK)) as [s | s | | s m e];
        cbn [magnitude_below signbit] in Hmb, Hsb; try (exfalso; exact Hmb);
        subst s; reflexivity.
    - rewrite Z.sub_diag. change (Number_of_bigint 0) with (S754_zero false).
      destruct (mul (Number_of_string (formatEther b)) POINTS_PER_TOKEN)
        as [s | s | | s m e];
        cbn [magnitude_below signbit] in Hmt, Hst; try (exfalso; exact Hmt);
        subst s; reflexivity. }
  split; [exact Hp |].
  unfold snapshot in *. cbn [PointsData.points PointsData.level] in *.
  rewrite Hp. reflexivity.
Qed.

Lemma nothing_held_scores_nothing_witness :
  PointsData.points (snapshot 300000 0) = S754_zero false
  /\ PointsData.level (snapshot START_BLOCK (10 ^ 24)) = Number_of_bigint 1.
Proof.
  split.
  - apply (nothing_held_scores_nothing 300000 0); [lia | | left; reflexivity].
    vm_compute. split; [discriminate | reflexivity].
  - apply (nothing_held_scores_nothing START_BLOCK (10 ^ 24));
      [| | right; reflexivity].
    + vm_compute. split; [discriminate | reflexivity].
    + vm_compute. split; [discriminate | reflexivity].
Defined.

(** ** What the cards show *)

Lemma string_of_uint_revapp d acc :
  NilEmpty.string_of_uint (Decimal.revapp d acc)
  = NilEmpty.string_of_uint (Decimal.rev d) +:+ NilEmpty.string_of_uint acc.
Proof.
  revert acc. unfold Decimal.rev.
  induction d as [|d IH|d IH|d IH|d IH|d IH|d IH|d IH|d IH|d IH|d IH];
    intros acc; [reflexivity | ..];
    cbn [Decimal.revapp]; rewrite IH; symmetry; rewrite IH;
    rewrite string_app_assoc; reflexivity.
Qed.

Lemma digits_nonempty z : digits z <> "".
Proof.
  unfold digits. destruct (N.to_uint (Z.to_N z)); cbn; discriminate.
Qed.

(** Ten times a positive integer is written with one more zero. *)
Lemma digits_tenfold z : 0 < z -> digits (10 * z) = digits z +:+ "0".
Proof.
  intros Hz. destruct z as [|p|p]; try lia.
  unfold digits. change (Z.to_N (10 * Zpos p)) with (Npos (10 * p)).
  change (Z.to_N (Zpos p)) with (Npos p). cbn [N.to_uint].
  unfold Pos.to_uint.
  pose proof (DecimalPos.Unsigned.to_ldec_tenfold p) as Hten.
  cbn [DecimalPos.Unsigned.to_lu] in Hten.
  change (10 * N.pos p)%N with (N.pos (10 * p)) in Hten.
  cbn [DecimalPos.Unsigned.to_lu] in Hten. rewrite Hten.
  unfold Decimal.rev at 1. cbn [Decimal.revapp].
  assert (Hne : forall d, d <> Decimal.Nil ->
                  NilZero.string_of_uint d = NilEmpty.string_of_uint d)
    by (intros [] H; try reflexivity; congruence).
  rewrite !Hne.
  - apply string_of_uint_revapp.
  - apply (DecimalPos.Unsigned.to_uint_nonnil p).
  - intros H. apply DecimalFacts.revapp_nil_inv in H as [_ H]. discriminate.
Qed.

(** A mantissa that stands for a positive integer below [2^53] is rounded
    to that integer. *)
Lemma binary_round_aux_integral s mz ez z :
  0 < z < 2 ^ 53 -> ez <= 0 -> Zpos mz = z * 2 ^ (- ez) ->
  integral (binary_round_aux prec emax s (Zpos mz) ez loc_Exact) s z.
Proof.
  intros Hz Hez Hmz.
  assert (Hdz : 0 < Zdigits2 z <= 53).
  { split; [destruct z; cbn in *; lia | apply Zdigits2_le; lia]. }
  assert (Hdmz : Zdigits2 (Zpos mz) + ez = Zdigits2 z)
    by (rewrite Hmz, Zdigits2_mul_pow2 by lia; lia).
  destruct (binary_round_aux_spec s (Zpos mz) 1 (Zpos mz) loc_Exact ez)
    as (m2 & [Hb Hexact] & Hres); try lia.
  { rewrite Z.div_1_r. reflexivity. }
  { rewrite Z.mod_1_r. reflexivity. }
  rewrite Hdmz, fexp_eq in Hb, Hexact, Hres.
  set (e1 := Z.max ez (Z.max (Zdigits2 z - 53) (-1074))) in *.
  assert (He1 : ez <= e1 <= 0 /\ Zdigits2 z - 53 <= e1) by (subst e1; lia).
  rewrite Z.mul_1_r in Hb, Hexact.
  assert (Hval : Zpos mz = z * 2 ^ (- e1) * 2 ^ (e1 - ez)).
  { rewrite Hmz, <- !Z.mul_assoc, <- !Z.pow_add_r by lia.
    f_equal. f_equal. lia. }
  assert (Hpf : 0 < 2 ^ (e1 - ez)) by (apply Z.pow_pos_nonneg; lia).
  assert (Hp1 : 0 < 2 ^ (- e1)) by (apply Z.pow_pos_nonneg; lia).
  assert (Hm2 : m2 = z * 2 ^ (- e1)).
  { rewrite Hexact.
    - rewrite Hval, Z.div_mul by lia. reflexivity.
    - rewrite Hval, Z.mod_mul by lia. reflexivity. }
  assert (Hlt : m2 < 2 ^ 53).
  { rewrite Hm2. destruct (Zdigits2_bounds z ltac:(lia)) as [_ Hhi].
    assert (2 ^ Zdigits2 z * 2 ^ (- e1) <= 2 ^ 53).
    { rewrite <- Z.pow_add_r by lia. apply Z.pow_le_mono_r; lia. }
    assert (z * 2 ^ (- e1) < 2 ^ Zdigits2 z * 2 ^ (- e1))
      by (apply Z.mul_lt_mono_pos_r; lia).
    lia. }
  assert (Hpos : 0 < m2) by (rewrite Hm2; apply Z.mul_pos_pos; lia).
  destruct Hres as [[E0 _] | (m3 & e3 & He3 & Hm3 & _ & Hcase & ->)];
    [lia |].
  destruct Hcase as [-> | Etop]; [| lia].
  rewrite Z.sub_diag, Z.pow_0_r, Z.mul_1_r in Hm3.
  assert (Hle : (e1 <=? emax - prec) = true)
    by (apply Z.leb_le; unfold emax, prec; lia).
  rewrite Hle. cbn [integral]. repeat split; [lia |]. rewrite Hm3. exact Hm2.
Qed.

(** A quotient that is a whole number below [2^53] is that number. *)
Lemma Number_of_ratio_whole n d :
  0 <= n < 2 ^ 53 ->
  integral (Number_of_ratio (n * Zpos d) d) false n.
Proof.
  intros Hn. unfold Number_of_ratio.
  destruct (n * Zpos d) as [|p|p] eqn:Ep; try lia.
  { assert (n = 0) as -> by lia. cbn. auto. }
  change (Z.abs (Zpos p)) with (Zpos p).
  rewrite SFdiv_core_binary_spec. cbv zeta.
  change (Zpos p <? 0) with false.
  set (e' := Z.min (fexp prec emax (Zdigits2 (Zpos p) + 0
                                    - (Zdigits2 (Zpos d) + 0))) (0 - 0)).
  assert (He' : e' <= 0) by (subst e'; lia).
  replace (0 - 0 - e') with (- e') by lia.
  assert (Hp : 0 < 2 ^ (- e')) by (apply Z.pow_pos_nonneg; lia).
  assert (Hn0 : 0 < n) by lia.
  assert (HU : Zpos p * 2 ^ (- e') = n * 2 ^ (- e') * Zpos d)
    by (rewrite <- Ep; ring).
  rewrite HU, Z.div_mul, Z.mod_mul by lia.
  assert (Hq : 0 < n * 2 ^ (- e')) by (apply Z.mul_pos_pos; lia).
  destruct (n * 2 ^ (- e')) as [|q|q] eqn:Eq; try lia.
  change (loc_of 0 (Zpos d)) with loc_Exact.
  apply binary_round_aux_integral; lia.
Qed.

Lemma toFixed_integral x n :
  integral x false n -> 0 <= n < 2 ^ 53 ->
  toFixed x 2 = fixed_digits (100 * n) 2.
Proof.
  destruct x as [s | s | | s m e]; cbn [integral]; try contradiction.
  - intros [_ ->] _. reflexivity.
  - intros (-> & He & Hm) Hn. unfold toFixed.
    assert (Hp : 0 < 2 ^ (- e)) by (apply Z.pow_pos_nonneg; lia).
    assert (H21 : 2 ^ 53 < 10 ^ 21) by reflexivity.
    destruct (0 <=? e) eqn:E0.
    + apply Z.leb_le in E0. assert (e = 0) as -> by lia.
      change (- 0) with 0 in Hm. rewrite Z.pow_0_r, Z.mul_1_r in *.
      assert (Hbig : (10 ^ 21 <=? Zpos m) = false) by (apply Z.leb_gt; lia).
      rewrite Hbig. cbv beta iota zeta.
      change ("" +:+ fixed_digits (Zpos m * 10 ^ Z.of_nat 2 * 1) 2)
        with (fixed_digits (Zpos m * 10 ^ Z.of_nat 2 * 1) 2).
      f_equal. rewrite Hm.
      change (Z.of_nat 2) with 2. change (10 ^ 2) with 100. ring.
    + assert (Hbig : (10 ^ 21 * 2 ^ (- e) <=? Zpos m) = false).
      { apply Z.leb_gt. rewrite Hm. apply Z.mul_lt_mono_pos_r; lia. }
      rewrite Hbig. cbv beta iota zeta.
      match goal with
      | |- "" +:+ fixed_digits ?a 2 = _ =>
        change ("" +:+ fixed_digits a 2) with (fixed_digits a 2)
      end.
      f_equal.
      change (Z.of_nat 2) with 2. change (10 ^ 2) with 100. rewrite Hm.
      replace (2 * (n * 2 ^ (- e)) * 100 + 2 ^ (- e))
        with (2 ^ (- e) + 100 * n * (2 * 2 ^ (- e))) by ring.
      rewrite Z.div_add by lia. rewrite Z.div_small by lia. lia.
Qed.

Lemma fixed_digits_whole n :
  0 <= n -> fixed_digits (100 * n) 2 = digits n +:+ ".00".
Proof.
  intros Hn. destruct (Z.eq_dec n 0) as [-> | Hne]; [reflexivity |].
  assert (Hd : digits (100 * n) = digits n +:+ "00").
  { replace (100 * n) with (10 * (10 * n)) by ring.
    rewrite !digits_tenfold by lia. rewrite string_app_assoc. reflexivity. }
  unfold fixed_digits. rewrite Hd, string_length_app.
  pose proof (digits_nonempty n) as Hnon.
  set (dn := digits n) in *.
  assert (Hlen : (1 <= String.length dn)%nat)
    by (destruct dn; [congruence | cbn; lia]).
  change (String.length "00") with 2%nat.
  assert (Hk : (String.length dn + 2 <=? 2)%nat = false)
    by (apply Nat.leb_gt; lia).
  rewrite Hk, string_length_app. change (String.length "00") with 2%nat.
  replace (String.length dn + 2 - 2)%nat with (String.length dn) by lia.
  rewrite substring_prefix.
  change 2%nat with (String.length "00") at 1.
  rewrite substring_suffix. reflexivity.
Qed.

(** X20: whole tokens are shown as they are.  A balance of [n] whole tokens
    with [n < 2^53], that is [n * 10^18] base units, becomes the number [n]
    without rounding, and the balance card shows the decimal digits of [n]
    followed by [.00]. *)
Theorem whole_tokens_are_shown_exactly cb n :
  0 <= n < 2 ^ 53 ->
  to_integer (Number_of_string (formatEther (n * 10 ^ 18))) = Some n
  /\ PointsData.balance (snapshot cb (n * 10 ^ 18)) = digits n +:+ ".00".
Proof.
  intros Hn.
  assert (Hint : integral (Number_of_string (formatEther (n * 10 ^ 18)))
                   false n).
  { unfold Number_of_string, formatEther. cbn [numerator decimals].
    apply (Number_of_ratio_whole n (10 ^ 18)). exact Hn. }
  split; [exact (to_integer_integral _ _ _ Hint) |].
  unfold snapshot. cbn [PointsData.balance].
  rewrite (toFixed_integral _ n Hint Hn). apply fixed_digits_whole. lia.
Qed.

Lemma whole_tokens_are_shown_exactly_witness :
  PointsData.balance (snapshot 300000 (1000000 * 10 ^ 18)) = "1000000.00".
Proof.
  destruct (whole_tokens_are_shown_exactly 300000 1000000) as [_ H].
  - vm_compute. split; [discriminate | reflexivity].
  - rewrite H. vm_compute. reflexivity.
Defined.

(** X21: a score under half a hundredth is shown as [0.00], on the card
    and in the table, whatever its exact value. *)
Theorem scores_under_half_a_hundredth_show_as_zero points :
  below_fraction points 1 200 -> points_text points = "0.00".
Proof.
  unfold points_text.
  destruct points as [s | s | | s m e]; cbn [below_fraction];
    try (intros []; fail).
  - intros _. reflexivity.
  - destruct s; [intros []; fail |].
    destruct (0 <=? e) eqn:E0.
    + apply Z.leb_le in E0. intros H. exfalso.
      assert (1 <= 2 ^ e) by (pose proof (Z.pow_pos_nonneg 2 e); lia).
      assert (1 * 1 <= Zpos m * 2 ^ e)
        by (apply Z.mul_le_mono_nonneg; lia).
      lia.
    + intros H. rewrite Z.mul_1_l in H. unfold toFixed. rewrite E0.
      assert (Hp : 0 < 2 ^ (- e)) by (apply Z.pow_pos_nonneg; lia).
      assert (Hbig : (10 ^ 21 * 2 ^ (- e) <=? Zpos m) = false).
      { apply Z.leb_gt.
        assert (1 * 2 ^ (- e) <= 10 ^ 21 * 2 ^ (- e))
          by (apply Z.mul_le_mono_nonneg_r; [lia | discriminate]).
        lia. }
      rewrite Hbig. cbv beta iota zeta.
      change (Z.of_nat 2) with 2. change (10 ^ 2) with 100.
      rewrite Z.div_small by lia. reflexivity.
Qed.

Lemma scores_under_half_a_hundredth_show_as_zero_witness :
  points_text (PointsData.points (snapshot 267810 (10 ^ 18))) = "0.00".
Proof.
  apply (scores_under_half_a_hundredth_show_as_zero
           (PointsData.points (snapshot 267810 (10 ^ 18)))).
  vm_compute. reflexivity.
Defined.

(** X22: when the upsert succeeds and the refresh that follows it fails,
    the row is stored and the snapshot shown, the list shown before stays,
    no error message is set, and the failure goes to the console only. *)
Theorem refresh_failure_after_upsert env arg st w cb b e :
  eligible (submitted arg st) = true ->
  blockNumber env = inr cb ->
  balanceOf env CYGAAR_ADDRESS (submitted arg st) = inr b ->
  upsert_fails env = None ->
  select_fails env = Some e ->
  let r := calculatePoints env arg (st, w) in
  pointsData (app_after r) = Some (snapshot cb b)
  /\ error (app_after r) = ""
  /\ loading (app_after r) = false
  /\ leaderboard (app_after r) = leaderboard st
  /\ points_leaderboard (world_after r)
     !! toLowerCase (submitted arg st)
     = Some (row_written env (submitted arg st) cb b)
  /\ console_during w r = [ErrorFetchingLeaderboard e].
Proof.
  intros Hel Hcb Hb Hup Hsel r. subst r. unfold console_during.
  rewrite (calculatePoints_scored _ _ _ _ _ _ Hel Hcb Hb), Hup, Hsel.
  unfold app_after, world_after. step. rewrite drop_app_length.
  repeat split; try reflexivity.
  unfold upsert, row_written. cbn [LeaderboardEntry.address].
  apply lookup_insert_eq.
Qed.

Lemma refresh_failure_after_upsert_witness :
  let r := calculatePoints (chain_at 267810 (10 ^ 24) None (Some store_down))
             (Some holder) (idle, untouched) in
  error (app_after r) = ""
  /\ leaderboard (app_after r) = []
  /\ console_during untouched r = [ErrorFetchingLeaderboard store_down].
Proof.
  pose proof (refresh_failure_after_upsert
                (chain_at 267810 (10 ^ 24) None (Some store_down))
                (Some holder) idle untouched 267810 (10 ^ 24) store_down
                eq_refl eq_refl eq_refl eq_refl eq_refl) as H.
  cbv zeta in H. destruct H as (_ & He & _ & Hl & _ & Hc).
  split; [exact He | split; [exact Hl | exact Hc]].
Defined.
